(** * blowVC, [synth_orig.py]: overlap-add synthesis and the conversion driver

    A shallow embedding of the script's functions [synthesize] and
    [deemphasis], of the loop that builds the transformation list
    (lines 130-158) and of the synthesis loop (lines 178-237), followed
    by the properties proved about them.

    - Samples are [float32] in the script.  They are modelled by exact
      rationals [Q]: the statements are about the arithmetic the code
      performs, not about the rounding of its floating-point results.
    - A Python exception is a value of [exn]; a computation that raises
      returns [Err e], and what it had written before is kept.
    - Sizes and indices are integers [Z], with Python's rules for
      negative indices and for the bounds of a slice.
    - The loader is a list of batches, a batch a list of pairs
      [(x[n], info[n])].  The speaker table is a dictionary in insertion
      order whose keys are strings or [None].
    - The random generator and the conversion model are the two
      collaborators: classes [RandomSource] and [VCModel].
    - The files written by [wavfile.write] are kept in a list, in the
      order written.  The timing and the report that ends the script are
      not modelled. *)

From Stdlib Require Import ZArith QArith Qabs Qround Qminmax List Bool Lia String Ascii.
From Stdlib Require Import Qfield.
Import ListNotations.

Local Open Scope Z_scope.

(** ** Exceptions and results *)

Inductive exn : Type :=
| IndexError
| KeyError
| AssertionError
| RuntimeError
| ValueError
| TypeError.

Inductive result (A : Type) : Type :=
| Ok (a : A)
| Err (e : exn).

Arguments Ok {A} a.
Arguments Err {A} e.

Definition bind {A B : Type} (m : result A) (k : A -> result B) : result B :=
  match m with
  | Ok a => k a
  | Err e => Err e
  end.

Notation "x <- m ;; k" := (bind m (fun x => k))
  (at level 61, m at next level, right associativity).

Notation "' p <- m ;; k" := (bind m (fun x => match x with p => k end))
  (at level 61, p pattern, m at next level, right associativity).

Definition is_ok {A : Type} (m : result A) : bool :=
  match m with Ok _ => true | Err _ => false end.

(** ** Samples, frames and buffers *)

Abbreviation frame := (list Q).

Definition len {A : Type} (l : list A) : Z := Z.of_nat (List.length l).

Definition Qltb (a b : Q) : bool := negb (Qle_bool b a).

(** [torch.zeros(n)]: a negative size is refused. *)
Definition zeros (n : Z) : result (list Q) :=
  if n <? 0 then Err RuntimeError else Ok (repeat 0%Q (Z.to_nat n)).

(** A bound of a Python slice over a sequence of length [n]: a negative
    bound counts from the end, and every bound is clamped to [0, n]. *)
Definition slice_index (n k : Z) : Z :=
  if k <? 0 then Z.max 0 (k + n) else Z.min k n.

(** [y[a:b]] as (first position, number of positions). *)
Definition slice (n a b : Z) : nat * nat :=
  let lo := slice_index n a in
  let hi := slice_index n b in
  (Z.to_nat lo, Z.to_nat (hi - lo)).

(** Adds [x] into [y] from position [lo] on, as far as both reach. *)
Fixpoint add_from (y : list Q) (lo : nat) (x : list Q) : list Q :=
  match y with
  | [] => []
  | h :: t =>
      match lo with
      | S lo' => h :: add_from t lo' x
      | O =>
          match x with
          | [] => y
          | a :: s => (h + a)%Q :: add_from t O s
          end
      end
  end.

(** [y[a:b] += x]: [x] must have the length of the slice, or length one
    (it is then broadcast over the slice). *)
Definition iadd_slice (y : list Q) (a b : Z) (x : list Q) : result (list Q) :=
  let '(lo, cnt) := slice (len y) a b in
  if Nat.eqb (List.length x) cnt then Ok (add_from y lo x)
  else if Nat.eqb (List.length x) 1 then Ok (add_from y lo (repeat (hd 0%Q x) cnt))
  else Err RuntimeError.

(** The loop [for i, x in enumerate(frames): y[i*stride:i*stride+len(x)] += x],
    entered at index [i]. *)
Fixpoint overlap_add (stride : Z) (i : Z) (frames : list frame) (y : list Q)
  : result (list Q) :=
  match frames with
  | [] => Ok y
  | x :: rest =>
      y' <- iadd_slice y (i * stride) (i * stride + len x) x ;;
      overlap_add stride (i + 1) rest y'
  end.

(** Lines 15-17 of [synthesize]: the buffer before de-emphasis and
    normalization.  [frames[0]] raises on an empty list. *)
Definition accumulate (frames : list frame) (stride : Z) : result (list Q) :=
  match frames with
  | [] => Err IndexError
  | f0 :: _ =>
      y <- zeros ((len frames - 1) * stride + len f0) ;;
      overlap_add stride 0 frames y
  end.

(** ** De-emphasis *)

Fixpoint list_set (l : list Q) (n : nat) (v : Q) : list Q :=
  match l, n with
  | [], _ => []
  | _ :: t, O => v :: t
  | h :: t, S n' => h :: list_set t n' v
  end.

(** One pass of the body [y[n] = x[n] + alpha * y[n - 1]]. *)
Definition deemph_step (alpha : Q) (x : list Q) (y : list Q) (n : nat) : list Q :=
  list_set y n (nth n x 0 + alpha * nth (n - 1) y 0)%Q.

Definition deemphasis (x : list Q) (alpha : Q) : result (list Q) :=
  if negb (Qle_bool 0 alpha && Qle_bool alpha 1) then Err AssertionError
  else if Qeq_bool alpha 0 || Qeq_bool alpha 1 then Ok x
  else Ok (fold_left (deemph_step alpha x) (seq 1 (List.length x - 1)) x).

(** ** Normalization, clipping and quantization *)

Definition np_sum (y : list Q) : Q := fold_left Qplus y 0%Q.

Definition np_mean (y : list Q) : Q := (np_sum y / inject_Z (len y))%Q.

(** [np.max]: refuses an empty array. *)
Definition np_max (y : list Q) : result Q :=
  match y with
  | [] => Err ValueError
  | h :: t => Ok (fold_left Qmax t h)
  end.

(** [np.clip(s, lo, hi)] is [minimum(maximum(s, lo), hi)]. *)
Definition clip (lo hi s : Q) : Q := Qmin (Qmax s lo) hi.

(** Lines 23-29 of [synthesize]. *)
Definition finalize (normalize : bool) (ymax : Q) (y : list Q) : result (list Q) :=
  if normalize then
    let y1 := map (fun s => s - np_mean y)%Q y in
    mx <- np_max (map Qabs y1) ;;
    if Qltb 0 mx then Ok (map (fun s => s * (ymax / mx))%Q y1) else Ok y1
  else Ok (map (clip (- ymax) ymax) y).

(** Conversion of a real to a signed 16-bit integer, as the cast
    [dtype=np.int16] does it: the fraction is dropped (towards zero), and
    the integer is reduced to 16 bits. *)
Definition Qtrunc (q : Q) : Z := Z.quot (Qnum q) (Zpos (Qden q)).

Definition wrap16 (z : Z) : Z := (z + 32768) mod 65536 - 32768.

Definition to_int16 (q : Q) : Z := wrap16 (Qtrunc q).

Definition quantize (y : list Q) : list Z :=
  map (fun s => to_int16 (s * 32767)%Q) y.

(** ** The file system: the files written so far, in the order written *)

Record wav : Type := mkWav { wav_path : string; wav_rate : Z; wav_data : list Z }.

Definition filesystem : Type := list wav.

Definition wavfile_write (fs : filesystem) (filename : string) (sr : Z) (data : list Z)
  : filesystem :=
  fs ++ [mkWav filename sr data].

(** ** [synthesize] *)

(** Lines 15-21: the accumulated buffer after the optional de-emphasis. *)
Definition prenorm (frames : list frame) (stride : Z) (deemph : Q) : result (list Q) :=
  y <- accumulate frames stride ;;
  if Qltb 0 deemph then deemphasis y deemph else Ok y.

Definition synthesize (fs : filesystem) (frames : list frame) (filename : string)
  (stride : Z) (sr : Z) (deemph : Q) (ymax : Q) (normalize : bool)
  : result (list Q) * filesystem :=
  match (y <- prenorm frames stride deemph ;; finalize normalize ymax y) with
  | Ok y => (Ok y, wavfile_write fs filename sr (quantize y))
  | Err e => (Err e, fs)
  end.

(** ** Python sequences, dictionaries and path names *)

(** [l[i]]: a negative index counts from the end. *)
Definition py_index {A : Type} (l : list A) (i : Z) : result A :=
  let k := if i <? 0 then i + len l else i in
  if k <? 0 then Err IndexError
  else match nth_error l (Z.to_nat k) with
       | Some a => Ok a
       | None => Err IndexError
       end.

(** The keys of the speaker table are Python values: a string, or [None]. *)
Definition key : Type := option string.

Definition key_eqb (a b : key) : bool :=
  match a, b with
  | None, None => true
  | Some s, Some t => String.eqb s t
  | _, _ => false
  end.

(** A dictionary in insertion order. *)
Definition dict : Type := list (key * Z).

Fixpoint dict_find (d : dict) (k : key) : option Z :=
  match d with
  | [] => None
  | (k', v) :: d' => if key_eqb k' k then Some v else dict_find d' k
  end.

(** [d[k]] *)
Definition dict_get (d : dict) (k : key) : result Z :=
  match dict_find d k with
  | Some v => Ok v
  | None => Err KeyError
  end.

(** [list(d.keys())] *)
Definition dict_keys (d : dict) : list key := map fst d.

(** [s[:-3]], that is [s[:-len('.pt')]]. *)
Definition strip_pt (s : string) : string :=
  substring 0 (String.length s - 3) s.

Fixpoint has_slash (s : string) : bool :=
  match s with
  | EmptyString => false
  | String c s' => Ascii.eqb c "/" || has_slash s'
  end.

(** [os.path.split(s)[1]]: what follows the last slash. *)
Fixpoint basename (s : string) : string :=
  match s with
  | EmptyString => EmptyString
  | String c s' =>
      if has_slash s' then basename s'
      else if Ascii.eqb c "/" then s' else s
  end.

Fixpoint ends_with_slash (s : string) : bool :=
  match s with
  | EmptyString => false
  | String c EmptyString => Ascii.eqb c "/"
  | String _ s' => ends_with_slash s'
  end.

(** [os.path.join(a, b)] *)
Definition path_join (a b : string) : string :=
  match b with
  | String "/" _ => b
  | _ =>
      match a with
      | EmptyString => b
      | _ => if ends_with_slash a then append a b
             else append a (String "/" b)
      end
  end.

(** ** The collaborators of the script *)

(** The generator behind [np.random]: a state and its next raw draw. *)
Class RandomSource : Type := {
  rng : Type;
  draw : rng -> Z * rng
}.

(** [np.random.randint(n)]: a value of [0, n), refused when [n <= 0]. *)
Definition randint `{RandomSource} (g : rng) (n : Z) : result (Z * rng) :=
  if n <=? 0 then Err ValueError
  else let '(k, g') := draw g in Ok (k mod n, g').

(** The conversion model: [model.forward(x, isource)[0]] and
    [model.reverse(z, itarget)]. *)
Class VCModel : Type := {
  latent : Type;
  forward : list frame -> list Z -> latent;
  reverse : latent -> list Z -> list frame
}.

(** A record of the loader: [i, j, last, ispk, iut = info[n]]. *)
Record info : Type := mkInfo {
  i_file : Z;
  j_pos : Z;
  last : Z;
  ispk : Z;
  iut : Z
}.

(** A batch [(x, info)] of the loader, one pair per chunk. *)
Definition batch : Type := list (frame * info).

Record dataset : Type := mkDataset {
  filenames : list string;
  filename_split : string -> string * string;
  speakers : dict
}.

Record arguments : Type := mkArgs {
  force_target_speaker : key;
  maxfiles : Z;
  convert : bool;
  synth_nonorm : bool;
  stride : Z;
  path_out : string;
  window : list Q
}.

(** An entry [[fn, source_speaker, target_speaker]] of [fnlist]. *)
Definition triple : Type := string * string * key.

(** ** The transformation list (lines 130-158) *)

Section Plan.

Context `{RandomSource}.
Variable args : arguments.
Variable data : dataset.

Record plan_state : Type := mkPlan {
  target_speaker : key;
  fnlist : list triple;
  itrafos : list (list Z * list Z);
  nfiles : Z;
  gen : rng
}.

(** Lines 130-134. *)
Definition plan_init (g : rng) : plan_state :=
  mkPlan (match force_target_speaker args with
          | Some s => Some s
          | None => None
          end) [] [] 0 g.

(** Lines 151-152: the new target speaker is drawn, and the draw is
    overridden by the forced speaker. *)
Definition restart_target (g : rng) : result (key * rng) :=
  let lspeakers := dict_keys (speakers data) in
  '(k, g') <- randint g (len lspeakers) ;;
  t <- py_index lspeakers k ;;
  match force_target_speaker args with
  | Some s => Ok (Some s, g')
  | None => Ok (t, g')
  end.

(** The variant that skips the draw when a target speaker is forced. *)
Definition restart_target_skip (g : rng) : result (key * rng) :=
  match force_target_speaker args with
  | Some s => Ok (Some s, g)
  | None => restart_target g
  end.

Section Restart.

Variable restart : rng -> result (key * rng).

(** Lines 140-153: one record of a batch; [ids] is [(isource, itarget)]. *)
Definition plan_record (acc : plan_state * (list Z * list Z)) (r : info)
  : result (plan_state * (list Z * list Z)) :=
  let '(st, (isource, itarget)) := acc in
  f <- py_index (filenames data) (i_file r) ;;
  let source_speaker := fst (filename_split data f) in
  s <- dict_get (speakers data) (Some source_speaker) ;;
  t <- dict_get (speakers data) (target_speaker st) ;;
  let ids := (isource ++ [s], itarget ++ [t]) in
  if (last r =? 1) && (nfiles st <? maxfiles args) then
    let fn := strip_pt f in
    let fnlist' := fnlist st ++ [(fn, source_speaker, target_speaker st)] in
    '(t', g') <- restart (gen st) ;;
    Ok (mkPlan t' fnlist' (itrafos st) (nfiles st + 1) g', ids)
  else Ok (st, ids).

(** Lines 137-153: the records of one batch, in order. *)
Fixpoint plan_records (acc : plan_state * (list Z * list Z)) (rs : list info)
  : result (plan_state * (list Z * list Z)) :=
  match rs with
  | [] => Ok acc
  | r :: rs' => acc' <- plan_record acc r ;; plan_records acc' rs'
  end.

(** Lines 135-158: the batches of the loader, until [maxfiles] files
    have been listed. *)
Fixpoint plan_loop (st : plan_state) (loader : list batch) : result plan_state :=
  match loader with
  | [] => Ok st
  | b :: rest =>
      '(st1, ids) <- plan_records (st, ([], [])) (map snd b) ;;
      let st2 := mkPlan (target_speaker st1) (fnlist st1)
                        (itrafos st1 ++ [ids]) (nfiles st1) (gen st1) in
      if maxfiles args <=? nfiles st2 then Ok st2 else plan_loop st2 rest
  end.

End Restart.

Definition build_plan (g : rng) (loader : list batch) : result plan_state :=
  plan_loop restart_target (plan_init g) loader.

Definition build_plan_skip (g : rng) (loader : list batch) : result plan_state :=
  plan_loop restart_target_skip (plan_init g) loader.

(** What the rest of the script reads of the plan. *)
Definition plan_view (st : plan_state) : list triple * list (list Z * list Z) :=
  (fnlist st, itrafos st).

End Plan.

(** ** The file of the transformation list (lines 161-164) *)

Definition tab : string := String (ascii_of_nat 9) EmptyString.
Definition newline : string := String (ascii_of_nat 10) EmptyString.

(** ['\t'.join(fields) + '\n']: [join] refuses a field that is [None]. *)
Definition list_line (t : triple) : result string :=
  let '(fn, source_speaker, target) := t in
  match target with
  | None => Err TypeError
  | Some s => Ok (append fn (append tab (append source_speaker
                   (append tab (append s newline)))))
  end.

(** The lines written, and the exception that stopped the writing. *)
Fixpoint write_list (l : list triple) : option exn * list string :=
  match l with
  | [] => (None, [])
  | t :: l' =>
      match list_line t with
      | Err e => (Some e, [])
      | Ok s => let '(e, ls) := write_list l' in (e, s :: ls)
      end
  end.

(** ** The synthesis loop (lines 178-237) *)

Section Synth.

Context `{VCModel}.
Variable args : arguments.
Variable plan_files : list triple.
Variable plan_ids : list (list Z * list Z).

Record synth_state : Type := mkSynth {
  audio : list frame;
  nflushed : Z;
  files : filesystem
}.

Definition synth_init : synth_state := mkSynth [] 0 [].

(** [x *= window] on one row of the batch: the window has the length of
    the row, or length one. *)
Definition mul_row (w : list Q) (f : frame) : result frame :=
  if Nat.eqb (List.length w) (List.length f)
  then Ok (map (fun p => (fst p * snd p)%Q) (combine f w))
  else if Nat.eqb (List.length w) 1
       then Ok (map (fun s => (s * hd 0 w)%Q) f)
       else Err RuntimeError.

Fixpoint mul_window (w : list Q) (x : list frame) : result (list frame) :=
  match x with
  | [] => Ok []
  | f :: x' => f' <- mul_row w f ;; r <- mul_window w x' ;; Ok (f' :: r)
  end.

(** Lines 216-220: the name of the output file. *)
Definition out_path (t : triple) : result string :=
  let '(fn, _, target) := t in
  let fn1 := basename fn in
  fn2 <- (if convert args
          then match target with
               | Some s => Ok (append fn1 (append "_to_" s))
               | None => Err TypeError
               end
          else Ok fn1) ;;
  Ok (path_join (path_out args) (append fn2 ".wav")).

(** Lines 216-232: a file is complete. *)
Definition flush (st : synth_state) : option exn * synth_state :=
  match (t <- py_index plan_files (nflushed st) ;; out_path t) with
  | Err e => (Some e, st)
  | Ok fn =>
      match synthesize (files st) (audio st) fn (stride args) 16000 0 (98 # 100)
                       (negb (synth_nonorm args)) with
      | (Err e, fs) => (Some e, mkSynth (audio st) (nflushed st) fs)
      | (Ok _, fs) => (None, mkSynth [] (nflushed st + 1) fs)
      end
  end.

(** Lines 210-234: the rows [x[n], x[n+1], ...] of a batch.  The loop is
    left when [maxfiles] files have been flushed. *)
Fixpoint synth_records (x : list frame) (n : Z) (infos : list info)
  (st : synth_state) : option exn * synth_state :=
  match x with
  | [] => (None, st)
  | f :: x' =>
      let st1 := mkSynth (audio st ++ [f]) (nflushed st) (files st) in
      match py_index infos n with
      | Err e => (Some e, st1)
      | Ok r =>
          if last r =? 1 then
            match flush st1 with
            | (Some e, st2) => (Some e, st2)
            | (None, st2) =>
                if maxfiles args <=? nflushed st2 then (None, st2)
                else synth_records x' (n + 1) infos st2
            end
          else synth_records x' (n + 1) infos st1
      end
  end.

(** Lines 185-234: batch number [k] and the following ones. *)
Fixpoint synth_loop (k : nat) (loader : list batch) (st : synth_state)
  : option exn * synth_state :=
  match loader with
  | [] => (None, st)
  | b :: rest =>
      match nth_error plan_ids k with
      | None => (None, st)
      | Some (isource, itarget) =>
          let x := map fst b in
          let x1 := if convert args
                    then reverse (forward x isource) itarget
                    else x in
          match mul_window (window args) x1 with
          | Err e => (Some e, st)
          | Ok x2 =>
              match synth_records x2 0 (map snd b) st with
              | (Some e, st') => (Some e, st')
              | (None, st') => synth_loop (S k) rest st'
              end
          end
      end
  end.

End Synth.

(** ** The script, from the transformation list to the last file *)

Record outputs : Type := mkOut {
  raised : option exn;
  list_file : list string;
  wav_files : filesystem
}.

Definition run `{RandomSource} `{VCModel} (args : arguments) (data : dataset)
  (g : rng) (loader : list batch) : outputs :=
  match build_plan args data g loader with
  | Err e => mkOut (Some e) [] []
  | Ok p =>
      match write_list (fnlist p) with
      | (Some e, ls) => mkOut (Some e) ls []
      | (None, ls) =>
          let '(e, st) := synth_loop args (fnlist p) (itrafos p) 0 loader synth_init in
          mkOut e ls (files st)
      end
  end.

(** ** Rounding to the nearest integer, ties to even *)


(** ** A small instance: a counter as generator, the identity as model *)

#[local] Instance counter_source : RandomSource :=
  {| rng := Z; draw := fun g => (g, g + 1) |}.

#[local] Instance identity_model : VCModel :=
  {| latent := list frame; forward := fun x _ => x; reverse := fun z _ => z |}.

Definition demo_split (s : string) : string * string :=
  (substring 0 2 s, substring 3 (String.length s - 3) s).

Definition demo_data : dataset :=
  mkDataset ["p1_a.pt"; "p2_b.pt"]%string demo_split
            [(Some "p1"%string, 0); (Some "p2"%string, 1)].

Definition demo_args (force : key) (maxf : Z) : arguments :=
  mkArgs force maxf false true 2 "res"%string [1; 1; 1; 1]%Q.

Definition demo_loader : list batch :=
  [ [ ([1; 1; 1; 1]%Q, mkInfo 0 0 0 0 0);
      ([1; 1; 1; 1]%Q, mkInfo 0 1 1 0 0);
      ([1; 2; 3; 4]%Q, mkInfo 1 0 1 1 0) ] ].

(** ** Comparing two runs of the plan builder *)

Definition map_result {A B : Type} (f : A -> B) (m : result A) : result B :=
  match m with
  | Ok a => Ok (f a)
  | Err e => Err e
  end.

Section PlanSimulation.

Context `{RandomSource}.

(** Two states that differ by the generator only. *)
Definition same_plan (a b : plan_state) : Prop :=
  target_speaker a = target_speaker b /\ fnlist a = fnlist b
  /\ itrafos a = itrafos b /\ nfiles a = nfiles b.

Definition same_step (a b : result (plan_state * (list Z * list Z))) : Prop :=
  match a, b with
  | Ok (sa, ia), Ok (sb, ib) => same_plan sa sb /\ ia = ib
  | Err ea, Err eb => ea = eb
  | _, _ => False
  end.

Definition same_result (a b : result plan_state) : Prop :=
  match a, b with
  | Ok sa, Ok sb => same_plan sa sb
  | Err ea, Err eb => ea = eb
  | _, _ => False
  end.

End PlanSimulation.

(** ** The records of the stream before the first boundary *)

(** No record before position [q] of the stream ends a file. *)
Definition no_boundary_before (infos : list info) (q : nat) : Prop :=
  forall q' r, (q' < q)%nat -> nth_error infos q' = Some r -> last r <> 1.

(** A speaker table with the key [None]. *)
Definition demo_data_null : dataset :=
  mkDataset ["p1_a.pt"; "p2_b.pt"]%string demo_split
            [(Some "p1"%string, 0); (Some "p2"%string, 1); (None, 7)].

(** ** Statements about the synthesis loop *)

Section SynthStatements.

Context `{VCModel}.
Variable args : arguments.
Variable plan_files : list triple.

(** Every file written carries the name made from the triple of its
    rank, and the counter is the number of files written. *)
Definition named_by_plan (st : synth_state) : Prop :=
  nflushed st = len (files st)
  /\ forall n w, nth_error (files st) n = Some w ->
       exists t, nth_error plan_files n = Some t
                 /\ out_path args t = Ok (wav_path w).

End SynthStatements.

(** ** The stream of rows and its files *)

Definition is_boundary (r : info) : bool := last r =? 1.

(** The files of a stream of rows: the frames up to and including each
    boundary row, [acc] being the frames read since the last boundary. *)
Fixpoint groups (rows : list (list Q * info)) (acc : list frame) : list (list frame) :=
  match rows with
  | [] => []
  | (f, r) :: rows' =>
      if is_boundary r then (acc ++ [f]) :: groups rows' []
      else groups rows' (acc ++ [f])
  end.

(** The frames read since the last boundary row. *)
Fixpoint pending (rows : list (list Q * info)) (acc : list frame) : list frame :=
  match rows with
  | [] => acc
  | (f, r) :: rows' =>
      if is_boundary r then pending rows' [] else pending rows' (acc ++ [f])
  end.

Section Stream.

Context `{VCModel}.
Variable args : arguments.
Variable plan_ids : list (list Z * list Z).

(** The rows that the synthesis loop reads from batch [k] on: the frames
    of each planned batch, converted and windowed, with their records. *)
Fixpoint stream_rows (k : nat) (loader : list batch) : list (list Q * info) :=
  match loader with
  | [] => []
  | b :: rest =>
      match nth_error plan_ids k with
      | None => []
      | Some (isource, itarget) =>
          let x := map fst b in
          let x1 := if convert args
                    then reverse (forward x isource) itarget
                    else x in
          match mul_window (window args) x1 with
          | Err _ => []
          | Ok x2 => combine x2 (map snd b) ++ stream_rows (S k) rest
          end
      end
  end.

End Stream.

(** The file of rank [n] holds the frames up to the boundary row of rank
    [n], synthesized under the name of the triple of rank [n], and that
    triple is the one of the file of that boundary row. *)
Definition flushed_in_order (args : arguments) (data : dataset)
  (plan_files : list triple) (rows : list (list Q * info)) (fs : filesystem) : Prop :=
  forall n w,
    nth_error fs n = Some w ->
    exists G r t f path y,
      nth_error (groups rows []) n = Some G
      /\ nth_error (filter is_boundary (map snd rows)) n = Some r
      /\ nth_error plan_files n = Some t
      /\ py_index (filenames data) (i_file r) = Ok f
      /\ fst t = (strip_pt f, fst (filename_split data f))
      /\ out_path args t = Ok path
      /\ synthesize [] G path (stride args) 16000 0 (98 # 100)
                    (negb (synth_nonorm args))
         = (Ok y, [w]).

(** ** Invariants of the two loops *)

Section LoopInvariants.

Context `{RandomSource}.
Variable args : arguments.
Variable data : dataset.
Variable p : plan_state.

(** The target ids emitted so far ([targets]) for the records read so far
    ([hist]): up to the first boundary they are the id of [None], and the
    target speaker is [None] until a boundary has been read. *)
Definition null_until_boundary (st : plan_state) (targets : list Z) (hist : list info) : Prop :=
  List.length targets = List.length hist
  /\ (forall q x, no_boundary_before hist q -> nth_error targets q = Some x ->
                  dict_get (speakers data) None = Ok x)
  /\ (target_speaker st <> None ->
      exists q r, nth_error hist q = Some r /\ last r = 1).

(** The builder after some records, the synthesis loop after the same
    records ([rows], with their frames), before [maxfiles] is reached. *)
Definition in_lockstep (bs : plan_state) (ss : synth_state) (rows : list (list Q * info)) : Prop :=
  len (fnlist bs) = nfiles bs
  /\ nflushed ss = nfiles bs
  /\ len (files ss) = nfiles bs
  /\ nfiles bs < maxfiles args
  /\ audio ss = pending rows []
  /\ List.length (groups rows []) = List.length (files ss)
  /\ List.length (filter is_boundary (map snd rows)) = List.length (files ss)
  /\ flushed_in_order args data (fnlist p) rows (files ss).

End LoopInvariants.

(** ** Closed forms for the buffer and for the filter *)

(** What the frames [i, i+1, ...] add at position [k] of the buffer:
    frame [j] covers the positions [j * stride .. j * stride + len - 1]. *)
Fixpoint ola_sum (stride : Z) (i : Z) (frames : list frame) (k : nat) : Q :=
  match frames with
  | [] => 0%Q
  | f :: rest =>
      ((if (i * stride <=? Z.of_nat k) && (Z.of_nat k <? i * stride + len f)
        then nth (k - Z.to_nat (i * stride)) f 0
        else 0)
       + ola_sum stride (i + 1) rest k)%Q
  end.



(** ** The source id of a record *)

(** [s] is the id of the speaker of the file of the record [r]. *)
Definition source_id (data : dataset) (s : Z) (r : info) : Prop :=
  exists f, py_index (filenames data) (i_file r) = Ok f
            /\ dict_get (speakers data) (Some (fst (filename_split data f))) = Ok s.

(** A model that returns no frame at all. *)
Definition silent_model : VCModel :=
  {| latent := unit; forward := fun _ _ => tt; reverse := fun _ _ => [] |}.

(** * Properties *)

(** ** The model on small inputs *)

Example synthesize_three_frames :
  synthesize [] [[1; 1; 1; 1]; [1; 1; 1; 1]; [1; 1; 1; 1]]%Q "a.wav" 2 16000 0 1 false
  = (Ok [0 + 1; 0 + 1; 1; 1; 1; 1; 0 + 1; 0 + 1]%Q,
     [mkWav "a.wav" 16000 [32767; 32767; 32767; 32767; 32767; 32767; 32767; 32767]]).
Proof. reflexivity. Qed.

Example synthesize_mismatched_frames :
  fst (synthesize [] [[1; 1]; [1; 1; 1; 1]]%Q "a.wav" 1 16000 0 1 false)
  = Err RuntimeError.
Proof. reflexivity. Qed.

Example run_forced_target :
  map wav_path (wav_files (@run counter_source identity_model
                             (demo_args (Some "p2"%string) 5) demo_data 0 demo_loader))
  = ["res/p1_a.wav"; "res/p2_b.wav"]%string.
Proof. reflexivity. Qed.

Example run_unset_target :
  raised (@run counter_source identity_model (demo_args None 5) demo_data 0 demo_loader)
  = Some KeyError.
Proof. reflexivity. Qed.

Example run_unset_target_null_key :
  raised (@run counter_source identity_model (demo_args None 5) demo_data_null 0
            demo_loader)
  = Some TypeError.
Proof. reflexivity. Qed.

(** ** Results *)

Lemma bind_ok {A B : Type} (m : result A) (k : A -> result B) (b : B) :
  bind m k = Ok b -> exists a, m = Ok a /\ k a = Ok b.
Proof. destruct m as [a|e]; simpl; intros E; [eauto | discriminate]. Qed.

Lemma len_nonneg {A : Type} (l : list A) : 0 <= len l.
Proof. unfold len; lia. Qed.

Lemma len_cons {A : Type} (a : A) (l : list A) : len (a :: l) = len l + 1.
Proof. unfold len; simpl List.length; lia. Qed.

Lemma len_app {A : Type} (l l' : list A) : len (l ++ l') = len l + len l'.
Proof. unfold len; rewrite length_app; lia. Qed.

(** ** The length of the buffer *)

Lemma add_from_length (y : list Q) : forall lo x,
  List.length (add_from y lo x) = List.length y.
Proof.
  induction y as [|h t IH]; intros lo x; simpl; [reflexivity|].
  destruct lo as [|lo]; [destruct x as [|a s]|]; simpl; now rewrite ?IH.
Qed.

Lemma iadd_slice_length (y : list Q) a b x y' :
  iadd_slice y a b x = Ok y' -> List.length y' = List.length y.
Proof.
  unfold iadd_slice. destruct (slice (len y) a b) as [lo cnt].
  destruct (Nat.eqb (List.length x) cnt).
  - intros E; injection E as <-; apply add_from_length.
  - destruct (Nat.eqb (List.length x) 1); [|discriminate].
    intros E; injection E as <-; apply add_from_length.
Qed.

Lemma overlap_add_length stride frames : forall i y y',
  overlap_add stride i frames y = Ok y' -> List.length y' = List.length y.
Proof.
  induction frames as [|x rest IH]; intros i y y'; simpl.
  - intros E; now injection E as <-.
  - intros E. apply bind_ok in E as (y1 & E1 & E2).
    apply IH in E2. apply iadd_slice_length in E1. congruence.
Qed.

Lemma zeros_ok n y : zeros n = Ok y -> 0 <= n /\ y = repeat 0%Q (Z.to_nat n).
Proof.
  unfold zeros. destruct (Z.ltb_spec n 0); [discriminate|].
  intros E; injection E as <-; auto.
Qed.

Lemma accumulate_length frames stride y :
  accumulate frames stride = Ok y ->
  exists f0 rest, frames = f0 :: rest /\
    len y = (len frames - 1) * stride + len f0.
Proof.
  unfold accumulate. destruct frames as [|f0 rest]; [discriminate|].
  intros E. apply bind_ok in E as (z & Ez & E).
  apply zeros_ok in Ez as [Hn ->]. apply overlap_add_length in E.
  exists f0, rest; split; [reflexivity|].
  unfold len at 1. rewrite E, repeat_length. lia.
Qed.

Lemma list_set_length (l : list Q) : forall n v,
  List.length (list_set l n v) = List.length l.
Proof.
  induction l as [|h t IH]; intros [|n] v; simpl; auto.
Qed.

Lemma deemph_fold_length alpha x ns : forall y,
  List.length (fold_left (deemph_step alpha x) ns y) = List.length y.
Proof.
  induction ns as [|n ns IH]; intros y; simpl; [reflexivity|].
  rewrite IH. apply list_set_length.
Qed.

Lemma deemphasis_length x alpha y :
  deemphasis x alpha = Ok y -> List.length y = List.length x.
Proof.
  unfold deemphasis.
  destruct (negb _); [discriminate|].
  destruct (_ || _); intros E; injection E as <-; [reflexivity|].
  apply deemph_fold_length.
Qed.

Lemma prenorm_length frames stride deemph y :
  prenorm frames stride deemph = Ok y ->
  exists f0 rest, frames = f0 :: rest /\
    len y = (len frames - 1) * stride + len f0.
Proof.
  unfold prenorm. intros E. apply bind_ok in E as (z & Ez & E).
  apply accumulate_length in Ez as (f0 & rest & -> & Hz).
  exists f0, rest; split; [reflexivity|].
  destruct (Qltb 0 deemph).
  - apply deemphasis_length in E. unfold len in *. now rewrite E.
  - now injection E as <-.
Qed.

Lemma np_max_ok (y : list Q) : y <> [] -> exists m, np_max y = Ok m.
Proof. destruct y as [|h t]; [congruence|]. simpl; eauto. Qed.

Lemma finalize_length normalize ymax y w :
  finalize normalize ymax y = Ok w -> List.length w = List.length y.
Proof.
  unfold finalize. destruct normalize.
  - intros E. apply bind_ok in E as (mx & _ & E).
    destruct (Qltb 0 mx); injection E as <-; now rewrite ?length_map.
  - intros E; injection E as <-; now rewrite length_map.
Qed.

Lemma synthesize_ok fs frames filename stride sr deemph ymax normalize w fs' :
  synthesize fs frames filename stride sr deemph ymax normalize = (Ok w, fs') ->
  exists buf, prenorm frames stride deemph = Ok buf /\
    finalize normalize ymax buf = Ok w /\
    fs' = fs ++ [mkWav filename sr (quantize w)].
Proof.
  unfold synthesize.
  destruct (prenorm frames stride deemph) as [buf|e]; simpl; [|discriminate].
  destruct (finalize normalize ymax buf) as [w'|e] eqn:Ef; [|discriminate].
  intros E; injection E as <- <-. exists buf; repeat split; auto.
Qed.

(** *** When the frames fit *)

Lemma slice_fits n a c :
  0 <= a -> 0 <= c -> a + c <= n -> slice n a (a + c) = (Z.to_nat a, Z.to_nat c).
Proof.
  intros Ha Hc Hn. unfold slice, slice_index.
  destruct (Z.ltb_spec a 0); [lia|]. destruct (Z.ltb_spec (a + c) 0); [lia|].
  f_equal; f_equal; lia.
Qed.

Lemma iadd_slice_fits y a x :
  0 <= a -> a + len x <= len y ->
  iadd_slice y a (a + len x) x = Ok (add_from y (Z.to_nat a) x).
Proof.
  intros Ha Hy. unfold iadd_slice.
  rewrite slice_fits by (auto using len_nonneg).
  unfold len at 1. rewrite Nat2Z.id, Nat.eqb_refl. reflexivity.
Qed.

Lemma overlap_add_fits stride lchunk frames : forall i y,
  0 <= stride -> 0 <= i ->
  Forall (fun f => len f = lchunk) frames ->
  (i + len frames - 1) * stride + lchunk <= len y ->
  exists y', overlap_add stride i frames y = Ok y'.
Proof.
  induction frames as [|x rest IH]; intros i y Hs Hi Hf Hy; simpl; [eauto|].
  inversion Hf as [|? ? Hx Hrest]; subst.
  rewrite len_cons in Hy. pose proof (len_nonneg rest) as Hr.
  rewrite iadd_slice_fits by nia. simpl.
  apply IH; auto; try lia.
  unfold len at 3. rewrite add_from_length. fold (len y). 
  replace (i + 1 + len rest - 1) with (i + (len rest + 1) - 1) by lia. exact Hy.
Qed.

Lemma accumulate_fits frames stride lchunk :
  frames <> [] -> 0 <= stride ->
  Forall (fun f => len f = lchunk) frames ->
  exists y, accumulate frames stride = Ok y.
Proof.
  intros Hne Hs Hf. destruct frames as [|f0 rest]; [congruence|].
  unfold accumulate. inversion Hf as [|? ? H0 Hrest]; subst.
  pose proof (len_nonneg rest). pose proof (len_nonneg f0).
  set (n := (len (f0 :: rest) - 1) * stride + len f0).
  assert (Hn : 0 <= n) by (subst n; rewrite len_cons; nia).
  assert (Ez : zeros n = Ok (repeat 0%Q (Z.to_nat n))).
  { unfold zeros. destruct (Z.ltb_spec n 0); [lia | reflexivity]. }
  rewrite Ez. cbn [bind].
  apply overlap_add_fits with (lchunk := len f0); auto; try lia.
  unfold len at 3. rewrite repeat_length. subst n. lia.
Qed.

(** C1. For a non-empty sequence of frames of length [lchunk] and a
    positive stride, every waveform that [synthesize] returns has length
    [(N - 1) * stride + lchunk]; and [synthesize] does return one when
    the de-emphasis coefficient is at most one and, for a normalized
    output, the frames are not empty vectors. *)
Theorem synthesize_length :
  forall fs frames filename stride sr deemph ymax normalize lchunk,
    frames <> [] ->
    Forall (fun f => len f = lchunk) frames ->
    0 < stride ->
    (forall y fs',
        synthesize fs frames filename stride sr deemph ymax normalize = (Ok y, fs') ->
        len y = (len frames - 1) * stride + lchunk)
    /\ (Qle_bool deemph 1 = true -> (normalize = true -> 0 < lchunk) ->
        exists y fs',
          synthesize fs frames filename stride sr deemph ymax normalize = (Ok y, fs')).
Proof.
  intros fs frames filename stride sr deemph ymax normalize lchunk Hne Hf Hs.
  split.
  - intros y fs' E. apply synthesize_ok in E as (buf & Eb & Ef & _).
    apply prenorm_length in Eb as (f0 & rest & -> & Hb).
    apply finalize_length in Ef. inversion Hf; subst.
    unfold len at 1. rewrite Ef. exact Hb.
  - intros Hd Hn.
    destruct (accumulate_fits frames stride lchunk) as [y0 Ey0]; auto; try lia.
    assert (exists buf, prenorm frames stride deemph = Ok buf) as [buf Eb].
    { unfold prenorm. rewrite Ey0. simpl. unfold Qltb.
      destruct (Qle_bool deemph 0) eqn:E0; simpl; [eauto|].
      unfold deemphasis. rewrite Hd.
      assert (Qle_bool 0 deemph = true) as ->.
      { apply Qle_bool_iff. destruct (Qlt_le_dec deemph 0) as [L|L]; auto.
        apply Qlt_le_weak, Qle_bool_iff in L. congruence. }
      simpl. destruct (_ || _); eauto. }
    assert (exists w, finalize normalize ymax buf = Ok w) as [w Ew].
    { unfold finalize. destruct normalize; [|eauto].
      destruct (np_max_ok (map Qabs (map (fun s => (s - np_mean buf)%Q) buf))) as [m ->].
      - apply prenorm_length in Eb as (f0 & rest & -> & Hb).
        inversion Hf; subst. specialize (Hn eq_refl).
        pose proof (len_nonneg rest). rewrite len_cons in Hb.
        destruct buf; [unfold len in Hb at 1; simpl in Hb; nia | discriminate].
      - simpl. destruct (Qltb 0 m); eauto. }
    exists w, (fs ++ [mkWav filename sr (quantize w)]).
    unfold synthesize. rewrite Eb. simpl. rewrite Ew. reflexivity.
Qed.

Lemma synthesize_length_witness :
  exists y fs',
    synthesize [] [[1; 1; 1; 1]; [1; 1; 1; 1]; [1; 1; 1; 1]]%Q "a.wav" 2 16000 0
               (98 # 100) false = (Ok y, fs')
    /\ len y = 8.
Proof.
  destruct (synthesize_length [] [[1; 1; 1; 1]; [1; 1; 1; 1]; [1; 1; 1; 1]]%Q
              "a.wav" 2 16000 0 (98 # 100) false 4) as [Hlen Hex].
  - discriminate.
  - repeat constructor.
  - lia.
  - destruct Hex as (y & fs' & E); [reflexivity | discriminate |].
    exists y, fs'. split; [exact E|]. apply (Hlen y fs' E).
Defined.

(** ** De-emphasis *)

Lemma nth_list_set (l : list Q) : forall n m v,
  nth m (list_set l n v) 0%Q =
  if Nat.eqb m n && Nat.ltb n (List.length l) then v else nth m l 0%Q.
Proof.
  induction l as [|h t IH]; intros n m v.
  - simpl. rewrite andb_false_r. reflexivity.
  - destruct n as [|n], m as [|m]; simpl; try reflexivity.
    rewrite IH. reflexivity.
Qed.

(** The state of the buffer after the passes [n = 1 .. k] of the loop. *)
Lemma deemph_fold_spec alpha x : forall k,
  (k <= List.length x - 1)%nat ->
  let y := fold_left (deemph_step alpha x) (seq 1 k) x in
  forall n,
    nth n y 0%Q =
    if Nat.leb 1 n && Nat.leb n k
    then (nth n x 0 + alpha * nth (n - 1) y 0)%Q
    else nth n x 0%Q.
Proof.
  induction k as [|k IH]; intros Hk y n.
  - subst y; cbn [seq fold_left]. destruct n; reflexivity.
  - assert (Hk' : (k <= List.length x - 1)%nat) by lia.
    specialize (IH Hk'). cbv zeta in IH.
    subst y. rewrite seq_S, fold_left_app. cbn [fold_left].
    set (y := fold_left (deemph_step alpha x) (seq 1 k) x) in *.
    assert (Hy : List.length y = List.length x) by apply deemph_fold_length.
    unfold deemph_step. rewrite !nth_list_set, Hy.
    replace (1 + k - 1)%nat with k by lia.
    assert (Hlt : Nat.ltb (1 + k) (List.length x) = true) by (apply Nat.ltb_lt; lia).
    rewrite Hlt, !andb_true_r.
    destruct (Nat.eqb_spec n (1 + k)) as [->|Hn].
    + replace (1 + k - 1)%nat with k by lia.
      destruct (Nat.eqb_spec k (1 + k)); [lia|].
      assert (Nat.leb 1 (1 + k) && Nat.leb (1 + k) (S k) = true) as ->.
      { apply andb_true_iff; split; apply Nat.leb_le; lia. }
      reflexivity.
    + destruct (Nat.eqb_spec (n - 1) (1 + k)) as [E|E].
      * (* n = k + 2: outside the passes done *)
        rewrite IH.
        assert (Nat.leb n k = false) as -> by (apply Nat.leb_gt; lia).
        assert (Nat.leb n (S k) = false) as -> by (apply Nat.leb_gt; lia).
        now rewrite !andb_false_r.
      * rewrite IH.
        destruct (Nat.leb 1 n) eqn:E1; simpl; [|reflexivity].
        apply Nat.leb_le in E1.
        destruct (Nat.leb_spec n k), (Nat.leb_spec n (S k)); try lia; reflexivity.
Qed.

(** C4. [deemphasis] returns its input when [alpha] is 0 or 1; for any
    other [alpha] of [0, 1] it returns [y] with [y[0] = x[0]] and
    [y[n] = x[n] + alpha * y[n-1]] for [n >= 1]; for [alpha] outside
    [0, 1] the assertion fails. *)
Theorem deemphasis_spec :
  forall (x : list Q) (alpha : Q),
    ((0 <= alpha /\ alpha <= 1)%Q ->
       ((alpha == 0 \/ alpha == 1)%Q -> deemphasis x alpha = Ok x)
       /\ (~ (alpha == 0)%Q -> ~ (alpha == 1)%Q ->
           exists y,
             deemphasis x alpha = Ok y
             /\ List.length y = List.length x
             /\ nth 0 y 0%Q = nth 0 x 0%Q
             /\ forall n, (1 <= n < List.length x)%nat ->
                  nth n y 0%Q = (nth n x 0 + alpha * nth (n - 1) y 0)%Q))
    /\ (~ (0 <= alpha /\ alpha <= 1)%Q -> deemphasis x alpha = Err AssertionError).
Proof.
  intros x alpha. split.
  - intros [H0 H1]. unfold deemphasis.
    apply Qle_bool_iff in H0, H1. rewrite H0, H1. cbn [andb negb].
    split.
    + intros [E|E]; apply Qeq_bool_iff in E; rewrite E; simpl;
        [reflexivity | now rewrite orb_true_r].
    + intros N0 N1.
      assert (Qeq_bool alpha 0 = false) as ->.
      { destruct (Qeq_bool alpha 0) eqn:E; [apply Qeq_bool_iff in E; tauto | reflexivity]. }
      assert (Qeq_bool alpha 1 = false) as ->.
      { destruct (Qeq_bool alpha 1) eqn:E; [apply Qeq_bool_iff in E; tauto | reflexivity]. }
      cbn [orb]. eexists; split; [reflexivity|].
      pose proof (deemph_fold_spec alpha x (List.length x - 1) (Nat.le_refl _)) as S.
      cbv zeta in S.
      split; [apply deemph_fold_length|]. split.
      * rewrite S. reflexivity.
      * intros n Hn. rewrite S.
        assert (Nat.leb 1 n && Nat.leb n (List.length x - 1) = true) as ->.
        { apply andb_true_iff; split; apply Nat.leb_le; lia. }
        reflexivity.
  - intros N. unfold deemphasis.
    destruct (Qle_bool 0 alpha) eqn:E0; [|reflexivity].
    destruct (Qle_bool alpha 1) eqn:E1; [|reflexivity].
    apply Qle_bool_iff in E0, E1. tauto.
Qed.

Lemma deemphasis_spec_witness :
  (exists y, deemphasis [1; 1; 1; 1]%Q (1 # 2) = Ok y
             /\ nth 0 y 0%Q = 1%Q
             /\ nth 1 y 0%Q = (1 + (1 # 2) * nth 0 y 0)%Q)
  /\ deemphasis [1; 2]%Q 1 = Ok [1; 2]%Q
  /\ deemphasis [1; 2]%Q 2 = Err AssertionError.
Proof.
  split; [|split].
  - destruct (deemphasis_spec [1; 1; 1; 1]%Q (1 # 2)) as [[_ H] _].
    + split; discriminate.
    + destruct H as (y & E & _ & H0 & Hn); [discriminate | discriminate |].
      exists y. split; [exact E|]. split; [exact H0|].
      apply (Hn 1%nat). simpl; lia.
  - destruct (deemphasis_spec [1; 2]%Q 1) as [[H _] _].
    + split; discriminate.
    + apply H. right. reflexivity.
  - destruct (deemphasis_spec [1; 2]%Q 2) as [_ H].
    apply H. intros [_ L]. apply L. reflexivity.
Defined.

(** ** Overlap-add *)

Lemma nth_add_from (y : list Q) : forall lo x k,
  nth k (add_from y lo x) 0%Q =
  if Nat.leb lo k && Nat.ltb k (lo + List.length x) && Nat.ltb k (List.length y)
  then (nth k y 0 + nth (k - lo) x 0)%Q
  else nth k y 0%Q.
Proof.
  induction y as [|h t IH]; intros lo x k.
  - simpl. rewrite andb_false_r. now destruct k.
  - destruct lo as [|lo].
    + destruct x as [|a s]; [simpl; now destruct k|].
      destruct k as [|k]; [reflexivity|].
      cbn [add_from nth]. rewrite IH. cbn [List.length].
      replace (S k - 0)%nat with (S (k - 0)) by lia. cbn [nth].
      reflexivity.
    + destruct k as [|k]; [reflexivity|].
      cbn [add_from nth]. rewrite IH. reflexivity.
Qed.

Lemma nth_zero_frame (g : list Q) k :
  Forall (fun v => v == 0)%Q g -> (nth k g 0 == 0)%Q.
Proof.
  intros Hg. revert k. induction Hg as [|v g Hv _ IH]; intros [|k]; simpl;
    auto; reflexivity.
Qed.

Lemma overlap_add_app stride l1 : forall l2 i y,
  overlap_add stride i (l1 ++ l2) y =
  (y1 <- overlap_add stride i l1 y ;; overlap_add stride (i + len l1) l2 y1).
Proof.
  induction l1 as [|x l1 IH]; intros l2 i y.
  - simpl. f_equal. unfold len; simpl; lia.
  - cbn [overlap_add app].
    destruct (iadd_slice y (i * stride) (i * stride + len x) x) as [y1|e];
      [|reflexivity].
    cbn [bind]. rewrite IH, len_cons.
    replace (i + (len l1 + 1)) with (i + 1 + len l1) by lia. reflexivity.
Qed.

(** Frames of zeros leave the buffer as it is. *)
Lemma overlap_add_zero_frames stride lchunk frames : forall i y y',
  0 <= stride -> 0 <= i ->
  Forall (fun f => len f = lchunk) frames ->
  Forall (Forall (fun v => v == 0)%Q) frames ->
  (i + len frames - 1) * stride + lchunk <= len y ->
  overlap_add stride i frames y = Ok y' ->
  forall k, (nth k y' 0 == nth k y 0)%Q.
Proof.
  induction frames as [|x rest IH]; intros i y y' Hs Hi Hf Hz Hy E k.
  - simpl in E. injection E as <-. reflexivity.
  - inversion Hf as [|? ? Hx Hrest]; inversion Hz as [|? ? Zx Zrest]; subst.
    rewrite len_cons in Hy. pose proof (len_nonneg rest) as Hr.
    assert (0 <= i * stride) by nia.
    assert (0 <= len rest * stride) by nia.
    cbn [overlap_add] in E. rewrite iadd_slice_fits in E by lia.
    cbn [bind] in E.
    eapply IH in E; eauto; try lia.
    + rewrite E, nth_add_from.
      destruct (_ && _ && _); [|reflexivity].
      rewrite (nth_zero_frame x _ Zx). ring.
    + unfold len at 3. rewrite add_from_length. fold (len y).
      replace (i + 1 + len rest - 1) with (i + (len rest + 1) - 1) by lia.
      exact Hy.
Qed.

Lemma nth_zeros n k : nth k (repeat 0%Q n) 0%Q = 0%Q.
Proof.
  revert k; induction n as [|n IH]; intros [|k]; simpl; auto.
Qed.

(** C2. If every frame but the one at index [i] is zero, the accumulated
    buffer holds that frame at offset [i * stride] and zeros elsewhere;
    and for three frames of length 4 with stride 2 the buffer has length
    8 and its positions 2 and 3 hold [frame0[2:4] + frame1[0:2]]. *)
Theorem overlap_add_linearity :
  (forall (frames : list frame) (stride lchunk : Z) (i : nat) (f : frame),
      0 <= stride ->
      Forall (fun g => len g = lchunk) frames ->
      nth_error frames i = Some f ->
      (forall j g, nth_error frames j = Some g -> j <> i ->
                   Forall (fun v => v == 0)%Q g) ->
      exists y,
        accumulate frames stride = Ok y
        /\ len y = (len frames - 1) * stride + lchunk
        /\ forall k, (k < List.length y)%nat ->
             (nth k y 0 ==
              if (Z.of_nat i * stride <=? Z.of_nat k)
                 && (Z.of_nat k <? Z.of_nat i * stride + lchunk)
              then nth (k - Z.to_nat (Z.of_nat i * stride)) f 0
              else 0)%Q)
  /\ (forall a0 a1 a2 a3 b0 b1 b2 b3 c0 c1 c2 c3 : Q,
         exists y,
           accumulate [[a0; a1; a2; a3]; [b0; b1; b2; b3]; [c0; c1; c2; c3]] 2 = Ok y
           /\ List.length y = 8%nat
           /\ (nth 2 y 0 == a2 + b0)%Q
           /\ (nth 3 y 0 == a3 + b1)%Q).
Proof.
  split.
  - intros frames stride lchunk i f Hs Hf Hi Hz.
    assert (Hne : frames <> []) by (intros ->; destruct i; discriminate).
    destruct (accumulate_fits frames stride lchunk Hne Hs Hf) as [y Ey].
    exists y. split; [exact Ey|].
    destruct (accumulate_length _ _ _ Ey) as (f0 & rest0 & Efr & Hlen).
    assert (Hf0 : len f0 = lchunk) by (subst frames; now inversion Hf).
    rewrite Hf0 in Hlen. split; [exact Hlen|].
    intros k Hk.
    (* the frames before and after index [i] *)
    apply nth_error_split in Hi as (pre & post & Hfr & Hpre).
    assert (Zpre : Forall (Forall (fun v => v == 0)%Q) pre).
    { apply Forall_forall. intros g Hg.
      apply In_nth_error in Hg as [j Hj].
      assert (j < List.length pre)%nat
        by (apply nth_error_Some; congruence).
      apply (Hz j g); [|lia].
      rewrite Hfr, nth_error_app1; auto. }
    assert (Zpost : Forall (Forall (fun v => v == 0)%Q) post).
    { apply Forall_forall. intros g Hg.
      apply In_nth_error in Hg as [j Hj].
      apply (Hz (List.length pre + S j)%nat g); [|lia].
      rewrite Hfr, nth_error_app2 by lia.
      replace (List.length pre + S j - List.length pre)%nat with (S j) by lia.
      exact Hj. }
    rewrite Hfr in Hf. apply Forall_app in Hf as [Fpre Ff].
    apply Forall_cons_iff in Ff as [Hfl Fpost].
    (* the three phases of the loop *)
    unfold accumulate in Ey. rewrite Efr in Ey. rewrite <- Efr in Ey.
    apply bind_ok in Ey as (z & Ez & Ey).
    apply zeros_ok in Ez as [Hn Ez]. rewrite Hf0 in Hn, Ez.
    assert (Hzl : len z = (len frames - 1) * stride + lchunk).
    { subst z. unfold len at 1. rewrite repeat_length. lia. }
    assert (Hlf : len frames = len pre + len post + 1).
    { rewrite Hfr, len_app, len_cons. lia. }
    pose proof (len_nonneg pre) as Lpre. pose proof (len_nonneg post) as Lpost.
    rewrite Hfr, overlap_add_app in Ey.
    apply bind_ok in Ey as (y1 & E1 & Ey).
    cbn [overlap_add] in Ey. rewrite Z.add_0_l in Ey.
    assert (L1 : List.length y1 = List.length z)
      by (eapply overlap_add_length; eauto).
    assert (Hy1 : len y1 = len z) by (unfold len; now rewrite L1).
    rewrite iadd_slice_fits in Ey by nia. cbn [bind] in Ey.
    pose proof (overlap_add_zero_frames stride lchunk pre 0 z y1 Hs (Z.le_refl 0)
                  Fpre Zpre) as P1.
    specialize (P1 ltac:(nia) E1).
    pose proof (overlap_add_zero_frames stride lchunk post (len pre + 1)
                  (add_from y1 (Z.to_nat (len pre * stride)) f) y Hs
                  ltac:(lia) Fpost Zpost) as P2.
    assert (Hfit : (len pre + 1 + len post - 1) * stride + lchunk
                   <= len (add_from y1 (Z.to_nat (len pre * stride)) f)).
    { replace (len (add_from y1 (Z.to_nat (len pre * stride)) f)) with (len y1)
        by (unfold len; now rewrite add_from_length).
      nia. }
    specialize (P2 Hfit Ey k).
    rewrite P2, nth_add_from.
    assert (Ei : Z.of_nat i = len pre) by (unfold len; lia).
    rewrite Ei.
    assert (Ly : List.length y = List.length y1).
    { apply overlap_add_length in Ey. now rewrite add_from_length in Ey. }
    assert (Hk1 : Nat.ltb k (List.length y1) = true) by (apply Nat.ltb_lt; lia).
    rewrite Hk1, andb_true_r.
    assert (Hz0 : (nth k y1 0 == 0)%Q) by (rewrite P1, Ez, nth_zeros; reflexivity).
    assert (Hoff : 0 <= len pre * stride) by nia.
    assert (Hflen : Z.of_nat (List.length f) = lchunk) by exact Hfl.
    destruct (Z.leb_spec (len pre * stride) (Z.of_nat k)) as [A|A];
      destruct (Z.ltb_spec (Z.of_nat k) (len pre * stride + lchunk)) as [B|B];
      cbn [andb].
    + assert (Nat.leb (Z.to_nat (len pre * stride)) k
              && Nat.ltb k (Z.to_nat (len pre * stride) + List.length f) = true) as ->.
      { apply andb_true_iff; split; [apply Nat.leb_le | apply Nat.ltb_lt]; lia. }
      rewrite Hz0. ring.
    + assert (Nat.ltb k (Z.to_nat (len pre * stride) + List.length f) = false) as ->
        by (apply Nat.ltb_ge; lia).
      rewrite andb_false_r. exact Hz0.
    + assert (Nat.leb (Z.to_nat (len pre * stride)) k = false) as ->
        by (apply Nat.leb_gt; lia).
      exact Hz0.
    + assert (Nat.leb (Z.to_nat (len pre * stride)) k = false) as ->
        by (apply Nat.leb_gt; lia).
      exact Hz0.
  - intros.
    exists [0 + a0; 0 + a1; 0 + a2 + b0; 0 + a3 + b1;
            0 + b2 + c0; 0 + b3 + c1; 0 + c2; 0 + c3]%Q.
    split; [reflexivity|]. split; [reflexivity|].
    split; cbn [nth]; ring.
Qed.

Lemma overlap_add_linearity_witness :
  exists y,
    accumulate [[0; 0; 0; 0]; [1; 2; 3; 4]; [0; 0; 0; 0]]%Q 2 = Ok y
    /\ len y = 8
    /\ (nth 2 y 0 == 1)%Q /\ (nth 5 y 0 == 4)%Q /\ (nth 6 y 0 == 0)%Q.
Proof.
  destruct overlap_add_linearity as [H _].
  destruct (H [[0; 0; 0; 0]; [1; 2; 3; 4]; [0; 0; 0; 0]]%Q 2 4 1%nat [1; 2; 3; 4]%Q)
    as (y & E & L & P).
  - lia.
  - repeat constructor.
  - reflexivity.
  - intros [|[|[|j]]] g Hj Hne; try congruence; simpl in Hj.
    + injection Hj as <-. repeat constructor; reflexivity.
    + injection Hj as <-. repeat constructor; reflexivity.
    + destruct j; discriminate.
  - exists y. split; [exact E|]. split; [exact L|].
    assert (L8 : len y = 8) by exact L.
    assert (Hl : List.length y = 8%nat) by (unfold len in L8; lia).
    split; [|split].
    + apply (P 2%nat). lia.
    + apply (P 5%nat). lia.
    + apply (P 6%nat). lia.
Defined.

(** ** Normalization and clipping *)

Lemma Qltb_lt (a b : Q) : Qltb a b = true <-> (a < b)%Q.
Proof.
  unfold Qltb. rewrite negb_true_iff. split.
  - intros E. apply Qnot_le_lt. intros L. apply Qle_bool_iff in L. congruence.
  - intros L. destruct (Qle_bool b a) eqn:E; [|reflexivity].
    apply Qle_bool_iff in E. now apply Qlt_not_le in L.
Qed.

Lemma fold_sum_acc (l : list Q) : forall a,
  (fold_left Qplus l a == a + np_sum l)%Q.
Proof.
  unfold np_sum. induction l as [|h t IH]; intros a; cbn [fold_left].
  - ring.
  - rewrite (IH (a + h)%Q), (IH (0 + h)%Q). ring.
Qed.

Lemma np_sum_cons (h : Q) (t : list Q) : (np_sum (h :: t) == h + np_sum t)%Q.
Proof. unfold np_sum at 1. cbn [fold_left]. rewrite fold_sum_acc. ring. Qed.



Lemma len_map {A B : Type} (f : A -> B) (l : list A) : len (map f l) = len l.
Proof. unfold len. now rewrite length_map. Qed.


Lemma np_mean_zero (w : list Q) : (np_sum w == 0)%Q -> (np_mean w == 0)%Q.
Proof.
  intros E. unfold np_mean, Qdiv. rewrite E. ring.
Qed.







(** ** Quantization *)









(** ** The empty sequence *)

(** C9. On an empty sequence of frames [synthesize] raises (the
    [IndexError] of [frames[0]]) and writes no file. *)
Theorem synthesize_empty :
  forall fs filename stride sr deemph ymax normalize,
    synthesize fs [] filename stride sr deemph ymax normalize = (Err IndexError, fs).
Proof. reflexivity. Qed.

(** ** The transformation list *)

Section PlanFacts.

Context `{RandomSource}.
Variable args : arguments.
Variable data : dataset.

Lemma plan_record_ok restart st isource itarget r st' isource' itarget' :
  plan_record args data restart (st, (isource, itarget)) r
  = Ok (st', (isource', itarget')) ->
  exists f s t,
    py_index (filenames data) (i_file r) = Ok f
    /\ dict_get (speakers data) (Some (fst (filename_split data f))) = Ok s
    /\ dict_get (speakers data) (target_speaker st) = Ok t
    /\ isource' = isource ++ [s]
    /\ itarget' = itarget ++ [t]
    /\ (((last r =? 1) && (nfiles st <? maxfiles args) = true
         /\ exists k g',
             restart (gen st) = Ok (k, g')
             /\ st' = mkPlan k
                        (fnlist st ++ [(strip_pt f, fst (filename_split data f),
                                        target_speaker st)])
                        (itrafos st) (nfiles st + 1) g')
        \/ ((last r =? 1) && (nfiles st <? maxfiles args) = false /\ st' = st)).
Proof.
  unfold plan_record. intros E.
  apply bind_ok in E as (f & Ef & E).
  apply bind_ok in E as (s & Es & E).
  apply bind_ok in E as (t & Et & E).
  exists f, s, t. repeat (split; [assumption|]).
  destruct ((last r =? 1) && (nfiles st <? maxfiles args)).
  - apply bind_ok in E as ([k g'] & Er & E).
    injection E as <- <- <-. repeat (split; [reflexivity|]).
    left. split; [reflexivity|]. exists k, g'. auto.
  - injection E as <- <- <-. repeat (split; [reflexivity|]).
    right. auto.
Qed.

(** A property of the state kept by every record and by the end of
    every batch is kept by the loop. *)
Lemma plan_records_invariant restart (P : plan_state -> Prop) :
  (forall st ids r st' ids',
      P st -> plan_record args data restart (st, ids) r = Ok (st', ids') -> P st') ->
  forall rs st ids st' ids',
    P st -> plan_records args data restart (st, ids) rs = Ok (st', ids') -> P st'.
Proof.
  intros Hrec. induction rs as [|r rs IH]; intros st ids st' ids' HP E.
  - simpl in E. injection E as <- <-. exact HP.
  - cbn [plan_records] in E. apply bind_ok in E as ([st1 ids1] & E1 & E).
    eapply IH; [|exact E]. eapply Hrec; eauto.
Qed.

Lemma plan_loop_invariant restart (P : plan_state -> Prop) :
  (forall st ids r st' ids',
      P st -> plan_record args data restart (st, ids) r = Ok (st', ids') -> P st') ->
  (forall st ids,
      P st -> P (mkPlan (target_speaker st) (fnlist st) (itrafos st ++ [ids])
                        (nfiles st) (gen st))) ->
  forall loader st st',
    P st -> plan_loop args data restart st loader = Ok st' -> P st'.
Proof.
  intros Hrec Hend. induction loader as [|b rest IH]; intros st st' HP E.
  - simpl in E. injection E as <-. exact HP.
  - cbn [plan_loop] in E. apply bind_ok in E as ([st1 ids] & E1 & E).
    apply (plan_records_invariant restart P Hrec) in E1; [|exact HP].
    apply (Hend st1 ids) in E1.
    destruct (maxfiles args <=? _).
    + injection E as <-. exact E1.
    + eapply IH; eauto.
Qed.

(** *** A forced target speaker *)

Lemma dict_get_nonempty d k v : dict_get d k = Ok v -> d <> [].
Proof. intros E ->. discriminate. Qed.

Lemma py_index_nonneg {A : Type} (l : list A) (k : Z) :
  0 <= k < len l -> exists a, py_index l k = Ok a.
Proof.
  intros Hk. unfold py_index.
  destruct (Z.ltb_spec k 0); [lia|]. destruct (Z.ltb_spec k 0); [lia|].
  destruct (nth_error l (Z.to_nat k)) eqn:E; [eauto|].
  apply nth_error_None in E. unfold len in Hk. lia.
Qed.

Lemma restart_target_forced g t :
  force_target_speaker args = Some t -> speakers data <> [] ->
  restart_target args data g = Ok (Some t, snd (draw g)).
Proof.
  intros Hf Hne. unfold restart_target, randint.
  assert (Hl : 0 < len (dict_keys (speakers data))).
  { unfold len, dict_keys. rewrite length_map.
    destruct (speakers data); [congruence | simpl; lia]. }
  destruct (Z.leb_spec (len (dict_keys (speakers data))) 0); [lia|].
  destruct (draw g) as [k g']. cbn [bind snd].
  destruct (py_index_nonneg (dict_keys (speakers data))
              (k mod len (dict_keys (speakers data)))) as [a ->].
  - apply Z.mod_pos_bound. exact Hl.
  - cbn [bind]. now rewrite Hf.
Qed.

Lemma restart_target_skip_forced g t :
  force_target_speaker args = Some t ->
  restart_target_skip args data g = Ok (Some t, g).
Proof. intros Hf. unfold restart_target_skip. now rewrite Hf. Qed.

Lemma plan_record_skip t sa sb ids r :
  force_target_speaker args = Some t -> same_plan sa sb ->
  same_step (plan_record args data (restart_target args data) (sa, ids) r)
            (plan_record args data (restart_target_skip args data) (sb, ids) r).
Proof.
  intros Hf (Et & Ef & Ei & En). destruct ids as [isource itarget].
  unfold plan_record. rewrite <- Et, <- Ef, <- Ei, <- En.
  destruct (py_index (filenames data) (i_file r)) as [f|e]; [|reflexivity].
  cbn [bind].
  destruct (dict_get (speakers data) (Some (fst (filename_split data f))))
    as [s|e] eqn:Es; [|reflexivity].
  cbn [bind].
  destruct (dict_get (speakers data) (target_speaker sa)) as [t0|e]; [|reflexivity].
  cbn [bind].
  destruct ((last r =? 1) && (nfiles sa <? maxfiles args)).
  - rewrite (restart_target_forced _ t Hf (dict_get_nonempty _ _ _ Es)).
    rewrite (restart_target_skip_forced _ t Hf).
    cbn. repeat split; auto.
  - cbn. repeat split; auto.
Qed.

Lemma plan_records_skip t rs : forall sa sb ids,
  force_target_speaker args = Some t -> same_plan sa sb ->
  same_step (plan_records args data (restart_target args data) (sa, ids) rs)
            (plan_records args data (restart_target_skip args data) (sb, ids) rs).
Proof.
  induction rs as [|r rs IH]; intros sa sb ids Hf S.
  - cbn. auto.
  - cbn [plan_records].
    pose proof (plan_record_skip t sa sb ids r Hf S) as R.
    destruct (plan_record args data (restart_target args data) (sa, ids) r)
      as [[sa1 ia]|ea];
      destruct (plan_record args data (restart_target_skip args data) (sb, ids) r)
      as [[sb1 ib]|eb]; cbn in R; try contradiction.
    + destruct R as [S1 <-]. cbn [bind]. now apply IH.
    + exact R.
Qed.

Lemma plan_loop_skip t loader : forall sa sb,
  force_target_speaker args = Some t -> same_plan sa sb ->
  same_result (plan_loop args data (restart_target args data) sa loader)
              (plan_loop args data (restart_target_skip args data) sb loader).
Proof.
  induction loader as [|b rest IH]; intros sa sb Hf S.
  - cbn. exact S.
  - cbn [plan_loop].
    pose proof (plan_records_skip t (map snd b) sa sb ([], []) Hf S) as R.
    destruct (plan_records args data (restart_target args data) (sa, ([], [])) _)
      as [[sa1 ia]|ea];
      destruct (plan_records args data (restart_target_skip args data) (sb, ([], [])) _)
      as [[sb1 ib]|eb]; cbn in R; try contradiction.
    + destruct R as [(Et & Ef & Ei & En) <-]. cbn [bind nfiles].
      rewrite <- En.
      destruct (maxfiles args <=? nfiles sa1).
      * cbn. unfold same_plan; cbn. repeat split; congruence.
      * apply IH; [exact Hf|]. unfold same_plan; cbn. repeat split; congruence.
    + exact R.
Qed.

End PlanFacts.

Section ForcedTarget.

Context `{RandomSource}.

(** C5. With a forced target speaker every triple of the list names
    that speaker; the generator is still drawn once per listed file;
    and the list and the speaker ids are those of a builder that skips
    the draw. *)
Theorem forced_target_speaker :
  forall (args : arguments) (data : dataset) (g : rng) (loader : list batch)
         (t : string),
    force_target_speaker args = Some t ->
    (forall st, build_plan args data g loader = Ok st ->
                Forall (fun tr : triple => snd tr = Some t) (fnlist st)
                /\ gen st = Nat.iter (List.length (fnlist st))
                                     (fun g' => snd (draw g')) g)
    /\ map_result plan_view (build_plan args data g loader)
       = map_result plan_view (build_plan_skip args data g loader).
Proof.
  intros args data g loader t Hf. split.
  - intros st E. unfold build_plan in E. split.
    + refine (proj2 (plan_loop_invariant args data _
               (fun st => target_speaker st = Some t
                          /\ Forall (fun tr : triple => snd tr = Some t) (fnlist st))
               _ _ loader _ st _ E)).
      * intros s0 [is0 it0] r s1 [is1 it1] [Ht Hl] Er.
        apply plan_record_ok in Er as (f & s & t0 & _ & Es & _ & _ & _ & [[_ Hr]|[_ ->]]);
          [|auto].
        destruct Hr as (k & g' & Er & ->). cbn.
        rewrite (restart_target_forced args data _ t Hf (dict_get_nonempty _ _ _ Es)) in Er.
        injection Er as <- <-. split; [reflexivity|].
        apply Forall_app. split; [exact Hl|]. constructor; [exact Ht | constructor].
      * intros s0 ids [Ht Hl]. cbn. auto.
      * unfold plan_init. rewrite Hf. cbn. auto.
    + refine (plan_loop_invariant args data _
               (fun st => gen st = Nat.iter (List.length (fnlist st))
                                            (fun g' => snd (draw g')) g)
               _ _ loader _ st _ E).
      * intros s0 [is0 it0] r s1 [is1 it1] Hg Er.
        apply plan_record_ok in Er as (f & s & t0 & _ & Es & _ & _ & _ & [[_ Hr]|[_ ->]]);
          [|auto].
        destruct Hr as (k & g' & Er & ->). cbn.
        rewrite (restart_target_forced args data _ t Hf (dict_get_nonempty _ _ _ Es)) in Er.
        injection Er as <- <-.
        rewrite length_app, Nat.add_comm. cbn [List.length Nat.add Nat.iter].
        now rewrite Hg.
      * intros s0 ids Hg. exact Hg.
      * reflexivity.
  - unfold build_plan, build_plan_skip.
    pose proof (plan_loop_skip args data t loader (plan_init args g) (plan_init args g) Hf)
      as R.
    specialize (R ltac:(repeat split)).
    destruct (plan_loop args data (restart_target args data) _ loader) as [sa|ea];
      destruct (plan_loop args data (restart_target_skip args data) _ loader) as [sb|eb];
      cbn in R; try contradiction.
    + destruct R as (_ & Ef & Ei & _). cbn. unfold plan_view. congruence.
    + cbn. congruence.
Qed.

End ForcedTarget.

Lemma forced_target_speaker_witness :
  exists st,
    @build_plan counter_source (demo_args (Some "p2"%string) 5) demo_data 0 demo_loader = Ok st
    /\ Forall (fun tr : triple => snd tr = Some "p2"%string) (fnlist st)
    /\ gen st = 2
    /\ map_result plan_view
         (@build_plan_skip counter_source (demo_args (Some "p2"%string) 5) demo_data 0 demo_loader)
       = Ok (plan_view st).
Proof.
  destruct (@forced_target_speaker counter_source (demo_args (Some "p2"%string) 5) demo_data 0
              demo_loader "p2"%string eq_refl) as [H1 H2].
  eexists. split; [reflexivity|].
  destruct (H1 _ eq_refl) as [Hall Hgen].
  split; [exact Hall|]. split; [exact Hgen|].
  symmetry. exact H2.
Defined.

(** *** No forced target speaker *)

Section NullTarget.

Context `{RandomSource}.
Variable args : arguments.
Variable data : dataset.

Local Abbreviation null_inv := (null_until_boundary data).

Lemma no_boundary_before_app hist rest q :
  no_boundary_before (hist ++ rest) q -> no_boundary_before hist q.
Proof.
  intros N q' r Hq Hr. apply (N q' r Hq).
  rewrite nth_error_app1; [exact Hr|]. apply nth_error_Some. congruence.
Qed.

Lemma plan_record_null restart st isource itarget r st' isource' itarget' prev hist :
  plan_record args data restart (st, (isource, itarget)) r
  = Ok (st', (isource', itarget')) ->
  null_inv st (prev ++ itarget) hist ->
  null_inv st' (prev ++ itarget') (hist ++ [r]).
Proof.
  intros E (Hlen & Hids & Htgt).
  apply plan_record_ok in E as (f & s & t & _ & _ & Et & _ & -> & Hst).
  unfold null_until_boundary. rewrite app_assoc.
  pose proof (length_app (prev ++ itarget) [t]) as Hl1.
  pose proof (length_app hist [r]) as Hl2. cbn [List.length] in Hl1, Hl2.
  split; [lia|]. split.
  - intros q x N Hq.
    destruct (Nat.lt_trichotomy q (List.length hist)) as [L|[L|L]].
    + rewrite nth_error_app1 in Hq by lia.
      apply (Hids q x); [|exact Hq]. eapply no_boundary_before_app; eauto.
    + rewrite nth_error_app2 in Hq by lia.
      replace (q - List.length (prev ++ itarget))%nat with 0%nat in Hq by lia.
      injection Hq as <-.
      destruct (target_speaker st) as [name|] eqn:Etgt; [|exact Et].
      destruct Htgt as (q0 & r0 & Hq0 & Hl0); [discriminate|].
      exfalso. apply (N q0 r0); auto.
      * assert (q0 < List.length hist)%nat by (apply nth_error_Some; congruence). lia.
      * rewrite nth_error_app1; [exact Hq0|]. apply nth_error_Some. congruence.
    + assert (nth_error ((prev ++ itarget) ++ [t]) q = None) as E.
      { apply nth_error_None. lia. }
      congruence.
  - intros Hne. destruct Hst as [[Hb _]|[_ ->]].
    + exists (List.length hist), r. split.
      * rewrite nth_error_app2 by lia. now rewrite Nat.sub_diag.
      * apply andb_true_iff in Hb as [Hb _]. now apply Z.eqb_eq in Hb.
    + destruct (Htgt Hne) as (q0 & r0 & Hq0 & Hl0).
      exists q0, r0. split; [|exact Hl0].
      rewrite nth_error_app1; [exact Hq0|]. apply nth_error_Some. congruence.
Qed.

Lemma plan_records_null restart prev rs : forall st isource itarget st' isource' itarget' hist,
  plan_records args data restart (st, (isource, itarget)) rs
  = Ok (st', (isource', itarget')) ->
  null_inv st (prev ++ itarget) hist ->
  null_inv st' (prev ++ itarget') (hist ++ rs).
Proof.
  induction rs as [|r rs IH]; intros st isource itarget st' isource' itarget' hist E I.
  - simpl in E. injection E as <- <- <-. now rewrite app_nil_r.
  - cbn [plan_records] in E. apply bind_ok in E as ([st1 [is1 it1]] & E1 & E).
    replace (hist ++ r :: rs) with ((hist ++ [r]) ++ rs)
      by (now rewrite <- app_assoc).
    eapply IH; [exact E|]. eapply plan_record_null; eauto.
Qed.

Lemma plan_records_itrafos restart rs st ids st' ids' :
  plan_records args data restart (st, ids) rs = Ok (st', ids') ->
  itrafos st' = itrafos st.
Proof.
  apply (plan_records_invariant args data restart (fun s => itrafos s = itrafos st));
    [|reflexivity].
  intros s0 [is0 it0] r s1 [is1 it1] E0 Er.
  apply plan_record_ok in Er as (f & s & t & _ & _ & _ & _ & _ & [[_ Hr]|[_ ->]]);
    [|exact E0].
  destruct Hr as (k & g' & _ & ->). exact E0.
Qed.

Lemma plan_loop_null restart loader : forall st st' hist,
  plan_loop args data restart st loader = Ok st' ->
  null_inv st (List.concat (map snd (itrafos st))) hist ->
  exists hist' rest,
    hist ++ List.concat (map (map snd) loader) = hist' ++ rest
    /\ null_inv st' (List.concat (map snd (itrafos st'))) hist'.
Proof.
  induction loader as [|b more IH]; intros st st' hist E I.
  - simpl in E. injection E as <-. exists hist, []. auto.
  - cbn [plan_loop] in E. apply bind_ok in E as ([st1 [is1 it1]] & E1 & E).
    pose proof (plan_records_itrafos _ _ _ _ _ _ E1) as Hi.
    apply (plan_records_null restart (List.concat (map snd (itrafos st)))) with (hist := hist)
      in E1; [|now rewrite app_nil_r].
    set (st2 := mkPlan (target_speaker st1) (fnlist st1) (itrafos st1 ++ [(is1, it1)])
                       (nfiles st1) (gen st1)) in *.
    assert (I2 : null_inv st2 (List.concat (map snd (itrafos st2))) (hist ++ map snd b)).
    { subst st2. cbn [itrafos]. rewrite Hi, map_app, concat_app. cbn.
      rewrite app_nil_r. exact E1. }
    cbn [map List.concat]. rewrite app_assoc.
    destruct (maxfiles args <=? nfiles st2).
    + injection E as <-. exists (hist ++ map snd b), (List.concat (map (map snd) more)). auto.
    + apply (IH _ _ _ E I2).
Qed.

End NullTarget.

Section NullTargetClaim.

Context `{RandomSource}.

(** C10. Without a forced target speaker the target id of every record
    up to and including the first boundary record is the id that the
    speaker table gives to [None]; the first triple of the list has the
    target [None]; and the list is built only if the table has the key
    [None], as soon as the first batch has a record. *)
Theorem unset_target_is_null :
  forall (args : arguments) (data : dataset) (g : rng) (loader : list batch)
         (st : plan_state),
    force_target_speaker args = None ->
    build_plan args data g loader = Ok st ->
    (forall q x,
        no_boundary_before (List.concat (map (map snd) loader)) q ->
        nth_error (List.concat (map snd (itrafos st))) q = Some x ->
        dict_get (speakers data) None = Ok x)
    /\ (forall tr, nth_error (fnlist st) 0 = Some tr -> snd tr = None)
    /\ (forall x r b rest, loader = ((x, r) :: b) :: rest ->
                           exists v, dict_get (speakers data) None = Ok v).
Proof.
  intros args data g loader st Hf E. unfold build_plan in E.
  assert (Hinit : target_speaker (plan_init args g) = None)
    by (unfold plan_init; now rewrite Hf).
  split; [|split].
  - destruct (plan_loop_null args data _ loader _ _ [] E) as (hist' & rest & Eh & I).
    + cbn. split; [reflexivity|]. split.
      * intros q x _ Hq. destruct q; discriminate.
      * intros N. unfold plan_init in N. rewrite Hf in N. cbn in N. congruence.
    + cbn [app] in Eh. rewrite Eh. destruct I as (_ & Hids & _).
      intros q x N Hq. apply (Hids q x); [|exact Hq].
      eapply no_boundary_before_app; eauto.
  - refine (proj2 (plan_loop_invariant args data _
             (fun s => (fnlist s = [] -> target_speaker s = None)
                       /\ forall tr, nth_error (fnlist s) 0 = Some tr -> snd tr = None)
             _ _ loader _ st _ E)).
    + intros s0 [is0 it0] r s1 [is1 it1] [Hn Hfirst] Er.
      apply plan_record_ok in Er as (f & s & t & _ & _ & _ & _ & _ & [[_ Hr]|[_ ->]]);
        [|auto].
      destruct Hr as (k & g' & _ & ->). cbn. split.
      * intros N. now apply app_eq_nil in N as [_ N].
      * intros tr Htr. destruct (fnlist s0) as [|tr0 l0] eqn:El.
        -- cbn in Htr. injection Htr as <-. cbn. now apply Hn.
        -- cbn in Htr. apply Hfirst. exact Htr.
    + intros s0 ids [Hn Hfirst]. cbn. auto.
    + split; [intros _; exact Hinit|]. intros tr Htr. discriminate.
  - intros x r b rest ->. cbn [plan_loop map snd] in E.
    apply bind_ok in E as ([st1 ids1] & E1 & _).
    cbn [plan_records] in E1. apply bind_ok in E1 as ([st0 [is0 it0]] & E0 & _).
    apply plan_record_ok in E0 as (f & s & t & _ & _ & Et & _).
    rewrite Hinit in Et. eauto.
Qed.

End NullTargetClaim.

Lemma unset_target_is_null_witness :
  exists st,
    @build_plan counter_source (demo_args None 5) demo_data_null 0 demo_loader = Ok st
    /\ nth_error (List.concat (map snd (itrafos st))) 1 = Some 7
    /\ (forall tr, nth_error (fnlist st) 0 = Some tr -> snd tr = None)
    /\ dict_get (speakers demo_data_null) None = Ok 7.
Proof.
  eexists. split; [reflexivity|].
  destruct (@unset_target_is_null counter_source (demo_args None 5) demo_data_null 0
              demo_loader _ eq_refl eq_refl) as (H1 & H2 & H3).
  split; [reflexivity|]. split; [exact H2|].
  apply (H1 1%nat 7); [|reflexivity].
  intros [|q'] r Hq Hr; [|lia]. injection Hr as <-. discriminate.
Defined.

(** ** The synthesis loop *)

Lemma py_index_nat {A : Type} (l : list A) (z : Z) (a : A) :
  0 <= z -> py_index l z = Ok a -> nth_error l (Z.to_nat z) = Some a.
Proof.
  intros Hz. unfold py_index. destruct (Z.ltb_spec z 0); [lia|].
  destruct (Z.ltb_spec z 0); [lia|].
  destruct (nth_error l (Z.to_nat z)); [|discriminate].
  now intros E; injection E as <-.
Qed.

Lemma nat_py_index {A : Type} (l : list A) (n : nat) (a : A) :
  nth_error l n = Some a -> py_index l (Z.of_nat n) = Ok a.
Proof.
  intros E. unfold py_index. destruct (Z.ltb_spec (Z.of_nat n) 0); [lia|].
  destruct (Z.ltb_spec (Z.of_nat n) 0); [lia|].
  now rewrite Nat2Z.id, E.
Qed.

Lemma synthesize_err fs frames filename stride sr deemph ymax normalize e fs' :
  synthesize fs frames filename stride sr deemph ymax normalize = (Err e, fs') ->
  fs' = fs.
Proof.
  unfold synthesize. destruct (bind _ _); intros E; [discriminate|].
  now injection E as _ <-.
Qed.

(** What [synthesize] computes and writes does not depend on the files
    written before. *)
Lemma synthesize_fresh fs frames filename stride sr deemph ymax normalize y fs' :
  synthesize fs frames filename stride sr deemph ymax normalize = (Ok y, fs') ->
  fs' = fs ++ [mkWav filename sr (quantize y)]
  /\ synthesize [] frames filename stride sr deemph ymax normalize
     = (Ok y, [mkWav filename sr (quantize y)]).
Proof.
  unfold synthesize. destruct (bind _ _) as [w|e]; intros E; [|discriminate].
  injection E as <- <-. auto.
Qed.

Section SynthFacts.

Context `{VCModel}.
Variable args : arguments.
Variable plan_files : list triple.
Variable plan_ids : list (list Z * list Z).

Lemma flush_ok st st' :
  flush args plan_files st = (None, st') ->
  exists t path y,
    py_index plan_files (nflushed st) = Ok t
    /\ out_path args t = Ok path
    /\ synthesize [] (audio st) path (stride args) 16000 0 (98 # 100)
                  (negb (synth_nonorm args))
       = (Ok y, [mkWav path 16000 (quantize y)])
    /\ st' = mkSynth [] (nflushed st + 1)
                     (files st ++ [mkWav path 16000 (quantize y)]).
Proof.
  unfold flush.
  destruct (py_index plan_files (nflushed st)) as [t|e] eqn:Et; cbn [bind];
    [|discriminate].
  destruct (out_path args t) as [path|e] eqn:Ep; [|discriminate].
  destruct (synthesize (files st) (audio st) path (stride args) 16000 0 (98 # 100)
              (negb (synth_nonorm args))) as [[y|e] fs] eqn:E; [|discriminate].
  apply synthesize_fresh in E as [-> E].
  intros E'; injection E' as <-. exists t, path, y. repeat split; auto.
Qed.

Lemma flush_err st e st' :
  flush args plan_files st = (Some e, st') ->
  nflushed st' = nflushed st /\ files st' = files st.
Proof.
  unfold flush.
  destruct (bind _ _) as [path|e0].
  - destruct (synthesize (files st) (audio st) path (stride args) 16000 0 (98 # 100)
                (negb (synth_nonorm args))) as [[y|e1] fs] eqn:E; [discriminate|].
    apply synthesize_err in E as ->.
    intros E'; injection E' as _ <-. auto.
  - intros E'; injection E' as _ <-. auto.
Qed.

Lemma named_by_plan_audio st a :
  named_by_plan args plan_files st -> named_by_plan args plan_files (mkSynth a (nflushed st) (files st)).
Proof. intros N. exact N. Qed.

Lemma named_by_plan_flush st o st' :
  named_by_plan args plan_files st -> flush args plan_files st = (o, st') -> named_by_plan args plan_files st'.
Proof.
  intros [Hn Hw] E. destruct o as [e|].
  - apply flush_err in E as [En Ef]. unfold named_by_plan. now rewrite En, Ef.
  - apply flush_ok in E as (t & path & y & Et & Ep & _ & ->).
    unfold named_by_plan. cbn [nflushed files]. split.
    + rewrite len_app, Hn. reflexivity.
    + intros n w Hnw.
      destruct (Nat.lt_ge_cases n (List.length (files st))) as [L|L].
      * rewrite nth_error_app1 in Hnw by exact L. now apply Hw.
      * rewrite nth_error_app2 in Hnw by exact L.
        destruct (n - List.length (files st))%nat as [|d] eqn:Ed;
          [|destruct d; discriminate].
        injection Hnw as <-. exists t. split; [|exact Ep].
        apply py_index_nat in Et; [|rewrite Hn; apply len_nonneg].
        rewrite Hn in Et. unfold len in Et. rewrite Nat2Z.id in Et.
        replace n with (List.length (files st)) by lia. exact Et.
Qed.

Lemma named_by_plan_records x : forall n infos st o st',
  named_by_plan args plan_files st ->
  synth_records args plan_files x n infos st = (o, st') -> named_by_plan args plan_files st'.
Proof.
  induction x as [|f x IH]; intros n infos st o st' N E.
  - simpl in E. injection E as <- <-. exact N.
  - cbn [synth_records] in E.
    set (st1 := mkSynth (audio st ++ [f]) (nflushed st) (files st)) in *.
    assert (N1 : named_by_plan args plan_files st1) by exact N.
    destruct (py_index infos n) as [r|e]; [|injection E as <- <-; exact N1].
    destruct (last r =? 1); [|eapply IH; eauto].
    destruct (flush args plan_files st1) as [[e|] st2] eqn:Ef;
      pose proof (named_by_plan_flush _ _ _ N1 Ef) as N2.
    + injection E as <- <-. exact N2.
    + destruct (maxfiles args <=? nflushed st2).
      * injection E as <- <-. exact N2.
      * eapply IH; eauto.
Qed.

Lemma named_by_plan_loop loader : forall k st o st',
  named_by_plan args plan_files st ->
  synth_loop args plan_files plan_ids k loader st = (o, st') -> named_by_plan args plan_files st'.
Proof.
  induction loader as [|b rest IH]; intros k st o st' N E.
  - simpl in E. injection E as <- <-. exact N.
  - cbn [synth_loop] in E.
    destruct (nth_error plan_ids k) as [[isource itarget]|];
      [|injection E as <- <-; exact N].
    destruct (mul_window (window args) _) as [x2|e];
      [|injection E as <- <-; exact N].
    destruct (synth_records args plan_files x2 0 (map snd b) st) as [[e|] st1] eqn:E1;
      pose proof (named_by_plan_records _ _ _ _ _ _ N E1) as N1.
    + injection E as <- <-. exact N1.
    + eapply IH; eauto.
Qed.

(** Once [maxfiles] files are flushed at a record of a batch, the rest
    of the batch is not read. *)
Lemma synth_records_stop pre f post infos : forall n st s r,
  0 <= n ->
  synth_records args plan_files (pre ++ [f]) n infos st = (None, s) ->
  py_index infos (n + len pre) = Ok r -> last r = 1 ->
  maxfiles args <= nflushed s ->
  synth_records args plan_files (pre ++ f :: post) n infos st = (None, s).
Proof.
  induction pre as [|a pre IH]; intros n st s r Hn E Hr Hl Hm.
  - cbn [app synth_records] in *. unfold len in Hr; simpl in Hr.
    rewrite Z.add_0_r in Hr. rewrite Hr in *.
    apply Z.eqb_eq in Hl. rewrite Hl in *.
    destruct (flush args plan_files _) as [[e|] st2]; [discriminate|].
    destruct (Z.leb_spec (maxfiles args) (nflushed st2)) as [L|L]; [exact E|].
    injection E as <-. lia.
  - cbn [app synth_records] in *.
    rewrite len_cons in Hr.
    replace (n + (len pre + 1)) with (n + 1 + len pre) in Hr by lia.
    destruct (py_index infos n) as [r0|e]; [|discriminate].
    destruct (last r0 =? 1).
    + destruct (flush args plan_files _) as [[e|] st2]; [discriminate|].
      destruct (maxfiles args <=? nflushed st2); [exact E|].
      eapply IH; eauto. lia.
    + eapply IH; eauto. lia.
Qed.

End SynthFacts.

(** ** The bound on the number of files *)

Section MaxFiles.

Context `{RandomSource} `{VCModel}.

Lemma plan_bound (args : arguments) (data : dataset) (g : rng) (loader : list batch) p :
  build_plan args data g loader = Ok p ->
  len (fnlist p) = nfiles p /\ nfiles p <= Z.max 0 (maxfiles args).
Proof.
  intros E. unfold build_plan in E.
  refine (plan_loop_invariant args data _
            (fun s => len (fnlist s) = nfiles s /\ nfiles s <= Z.max 0 (maxfiles args))
            _ _ loader _ p _ E).
  - intros s0 [is0 it0] r s1 [is1 it1] [Hl Hb] Er.
    apply plan_record_ok in Er as (f & s & t & _ & _ & _ & _ & _ & [[Hc Hr]|[_ ->]]);
      [|auto].
    destruct Hr as (k & g' & _ & ->). cbn.
    apply andb_true_iff in Hc as [_ Hc]. apply Z.ltb_lt in Hc.
    rewrite len_app. unfold len at 2. cbn. lia.
  - intros s0 ids Hs. exact Hs.
  - cbn. unfold len. cbn. lia.
Qed.

Lemma named_by_plan_bound (args : arguments) (plan_files : list triple) st :
  named_by_plan args plan_files st -> len (files st) <= len plan_files.
Proof.
  intros [_ Hw]. unfold len.
  destruct (files st) as [|w0 l] eqn:El; [cbn; lia|].
  destruct (nth_error (w0 :: l) (List.length l)) as [w|] eqn:Ew.
  - destruct (Hw _ _ Ew) as (t & Ht & _).
    assert (List.length l < List.length plan_files)%nat
      by (apply nth_error_Some; congruence).
    cbn [List.length]. lia.
  - apply nth_error_None in Ew. cbn [List.length] in Ew. lia.
Qed.

(** C6. The script writes at most [maxfiles] files: the list has at
    most [maxfiles] triples and every flush takes the next triple; and
    when the bound is reached at a record of a batch, the loop over the
    batch ends there, whatever records follow. *)
Theorem maxfiles_bound :
  forall (args : arguments) (data : dataset) (g : rng) (loader : list batch),
    0 <= maxfiles args ->
    len (wav_files (run args data g loader)) <= maxfiles args
    /\ (forall p, build_plan args data g loader = Ok p ->
                  len (fnlist p) <= maxfiles args)
    /\ (forall plan_files pre f post infos st s r,
           synth_records args plan_files (pre ++ [f]) 0 infos st = (None, s) ->
           py_index infos (len pre) = Ok r -> last r = 1 ->
           maxfiles args <= nflushed s ->
           synth_records args plan_files (pre ++ f :: post) 0 infos st = (None, s)).
Proof.
  intros args data g loader Hm.
  assert (Hp : forall p, build_plan args data g loader = Ok p ->
                         len (fnlist p) <= maxfiles args).
  { intros p Ep. apply plan_bound in Ep as [-> Hb]. lia. }
  split; [|split; [exact Hp|]].
  - unfold run. destruct (build_plan args data g loader) as [p|e] eqn:Ep;
      [|cbn; unfold len; cbn; lia].
    destruct (write_list (fnlist p)) as [[e|] ls]; [cbn; unfold len; cbn; lia|].
    destruct (synth_loop args (fnlist p) (itrafos p) 0 loader synth_init)
      as [o st] eqn:Es. cbn [wav_files].
    apply named_by_plan_loop in Es.
    + apply named_by_plan_bound in Es. specialize (Hp p eq_refl). lia.
    + split; [reflexivity|]. intros [|n] w Hw; discriminate.
  - intros plan_files pre f post infos st s r E Hr Hl Hs.
    eapply synth_records_stop; eauto; lia.
Qed.

End MaxFiles.

Lemma maxfiles_bound_witness :
  len (wav_files (@run counter_source identity_model
                       (demo_args (Some "p2"%string) 1) demo_data 0 demo_loader)) = 1
  /\ exists s,
      synth_records (demo_args (Some "p2"%string) 1)
        [("p1_a", "p1", Some "p2")]%string
        [[1; 1; 1; 1]; [1; 1; 1; 1]; [1; 2; 3; 4]]%Q 0
        (map snd (hd [] demo_loader)) synth_init = (None, s)
      /\ len (files s) = 1.
Proof.
  destruct (@maxfiles_bound counter_source identity_model
              (demo_args (Some "p2"%string) 1) demo_data 0 demo_loader)
    as (H1 & _ & H3).
  - cbn. lia.
  - split; [reflexivity|].
    eexists. split.
    + apply (H3 [("p1_a", "p1", Some "p2")]%string [[1; 1; 1; 1]]%Q [1; 1; 1; 1]%Q
                [[1; 2; 3; 4]]%Q (map snd (hd [] demo_loader))
                synth_init _ (mkInfo 0 1 1 0 0)).
      * reflexivity.
      * reflexivity.
      * reflexivity.
      * cbn. lia.
    + reflexivity.
Defined.

(** ** The order of the files *)

Lemma groups_app rows : forall more acc,
  groups (rows ++ more) acc = groups rows acc ++ groups more (pending rows acc).
Proof.
  induction rows as [|[f r] rows IH]; intros more acc; cbn [app groups pending].
  - reflexivity.
  - destruct (is_boundary r); cbn [app]; now rewrite IH.
Qed.

Lemma pending_app rows : forall more acc,
  pending (rows ++ more) acc = pending more (pending rows acc).
Proof.
  induction rows as [|[f r] rows IH]; intros more acc; cbn [app pending].
  - reflexivity.
  - destruct (is_boundary r); now rewrite IH.
Qed.

Lemma nth_error_app_some {A : Type} (l l' : list A) n a :
  nth_error l n = Some a -> nth_error (l ++ l') n = Some a.
Proof.
  intros E. rewrite nth_error_app1; [exact E|].
  apply nth_error_Some. congruence.
Qed.

Lemma nth_error_snoc {A : Type} (l : list A) a :
  nth_error (l ++ [a]) (List.length l) = Some a.
Proof. rewrite nth_error_app2 by lia. now rewrite Nat.sub_diag. Qed.

Lemma flushed_in_order_app args data plan_files rows more fs :
  flushed_in_order args data plan_files rows fs ->
  flushed_in_order args data plan_files (rows ++ more) fs.
Proof.
  intros G n w Hw.
  destruct (G n w Hw) as (g & r & t & f & path & y & Hg & Hr & Ht & Hrest).
  exists g, r, t, f, path, y. split; [|split; [|split; [exact Ht | exact Hrest]]].
  - rewrite groups_app. now apply nth_error_app_some.
  - rewrite map_app, filter_app. now apply nth_error_app_some.
Qed.

Lemma flushed_in_order_snoc args data plan_files rows fs fr r w t f path y :
  flushed_in_order args data plan_files rows fs ->
  List.length (groups rows []) = List.length fs ->
  List.length (filter is_boundary (map snd rows)) = List.length fs ->
  is_boundary r = true ->
  nth_error plan_files (List.length fs) = Some t ->
  py_index (filenames data) (i_file r) = Ok f ->
  fst t = (strip_pt f, fst (filename_split data f)) ->
  out_path args t = Ok path ->
  synthesize [] (pending rows [] ++ [fr]) path (stride args) 16000 0 (98 # 100)
             (negb (synth_nonorm args)) = (Ok y, [w]) ->
  flushed_in_order args data plan_files (rows ++ [(fr, r)]) (fs ++ [w]).
Proof.
  intros G Lg Lb Hb Ht Hf Hn Hp Hs n w0 Hw.
  destruct (Nat.lt_ge_cases n (List.length fs)) as [L|L].
  - rewrite nth_error_app1 in Hw by exact L.
    now apply (flushed_in_order_app _ _ _ _ [(fr, r)] _ G).
  - rewrite nth_error_app2 in Hw by exact L.
    destruct (n - List.length fs)%nat as [|d] eqn:Ed; [|destruct d; discriminate].
    injection Hw as <-. assert (n = List.length fs) as -> by lia.
    exists (pending rows [] ++ [fr]), r, t, f, path, y.
    split; [|split]; [| |auto].
    + rewrite groups_app. cbn [groups]. rewrite Hb, <- Lg. apply nth_error_snoc.
    + rewrite map_app, filter_app. cbn [map filter snd]. rewrite Hb, <- Lb.
      apply nth_error_snoc.
Qed.

Lemma mul_window_length w x : forall x2,
  mul_window w x = Ok x2 -> List.length x2 = List.length x.
Proof.
  induction x as [|f x IH]; intros x2 E.
  - simpl in E. now injection E as <-.
  - cbn [mul_window] in E.
    apply bind_ok in E as (f' & _ & E). apply bind_ok in E as (r & Er & E).
    injection E as <-. cbn [List.length]. f_equal. now apply IH.
Qed.

Section PlanGrowth.

Context `{RandomSource}.
Variable args : arguments.
Variable data : dataset.
Variable restart : rng -> result (key * rng).

(** The list only grows. *)
Lemma plan_records_grows rs st ids st' ids' :
  plan_records args data restart (st, ids) rs = Ok (st', ids') ->
  exists ext, fnlist st' = fnlist st ++ ext.
Proof.
  apply (plan_records_invariant args data restart
           (fun s => exists ext, fnlist s = fnlist st ++ ext)).
  - intros s0 [is0 it0] r s1 [is1 it1] [ext E0] Er.
    apply plan_record_ok in Er as (f & s & t & _ & _ & _ & _ & _ & [[_ Hr]|[_ ->]]);
      [|eauto].
    destruct Hr as (k & g' & _ & ->). cbn. rewrite E0, <- app_assoc. eauto.
  - exists []. now rewrite app_nil_r.
Qed.

Lemma plan_loop_grows loader st p :
  plan_loop args data restart st loader = Ok p ->
  (exists ext, fnlist p = fnlist st ++ ext)
  /\ (exists ext, itrafos p = itrafos st ++ ext).
Proof.
  apply (plan_loop_invariant args data restart
           (fun s => (exists ext, fnlist s = fnlist st ++ ext)
                     /\ (exists ext, itrafos s = itrafos st ++ ext))).
  - intros s0 [is0 it0] r s1 [is1 it1] [[ext E0] Hi] Er.
    apply plan_record_ok in Er as (f & s & t & _ & _ & _ & _ & _ & [[_ Hr]|[_ ->]]);
      [|eauto].
    destruct Hr as (k & g' & _ & ->). cbn. split; [|exact Hi].
    rewrite E0, <- app_assoc. eauto.
  - intros s0 ids [Hf [ext Ei]]. cbn. split; [exact Hf|].
    rewrite Ei, <- app_assoc. eauto.
  - split; exists []; now rewrite app_nil_r.
Qed.

(** Once [maxfiles] files are listed, the list is complete. *)
Lemma plan_records_full rs st ids st' ids' :
  maxfiles args <= nfiles st ->
  plan_records args data restart (st, ids) rs = Ok (st', ids') ->
  fnlist st' = fnlist st /\ nfiles st' = nfiles st.
Proof.
  intros Hm.
  apply (plan_records_invariant args data restart
           (fun s => fnlist s = fnlist st /\ nfiles s = nfiles st)); [|auto].
  intros s0 [is0 it0] r s1 [is1 it1] [E0 En] Er.
  apply plan_record_ok in Er as (f & s & t & _ & _ & _ & _ & _ & [[Hc _]|[_ ->]]);
    [|auto].
  apply andb_true_iff in Hc as [_ Hc]. apply Z.ltb_lt in Hc. lia.
Qed.

End PlanGrowth.

Section Lockstep.

Context `{RandomSource} `{VCModel}.
Variable args : arguments.
Variable data : dataset.
Variable restart : rng -> result (key * rng).
Variable p : plan_state.

Local Abbreviation in_step := (in_lockstep args data p).

Lemma lockstep_records : forall rs x done bs ids ss bs' ids' ss' rows infos,
  infos = done ++ rs ->
  List.length x = List.length rs ->
  plan_records args data restart (bs, ids) rs = Ok (bs', ids') ->
  synth_records args (fnlist p) x (len done) infos ss = (None, ss') ->
  (exists ext, fnlist p = fnlist bs' ++ ext) ->
  in_step bs ss rows ->
  in_step bs' ss' (rows ++ combine x rs)
  \/ (maxfiles args <= nfiles bs'
      /\ len (fnlist bs') = nfiles bs'
      /\ len (files ss') = nfiles bs'
      /\ flushed_in_order args data (fnlist p) (rows ++ combine x rs) (files ss')).
Proof.
  induction rs as [|r rs IH];
    intros x done bs ids ss bs' ids' ss' rows infos Hi Hx Eb Es Hp I.
  - destruct x; [|discriminate]. simpl in Eb, Es.
    injection Eb as <- <-. injection Es as <-.
    left. cbn [combine]. now rewrite app_nil_r.
  - destruct x as [|f x]; [discriminate|]. injection Hx as Hx.
    cbn [plan_records] in Eb. apply bind_ok in Eb as ([bs1 [is1 it1]] & E1 & Eb).
    destruct (plan_records_grows _ _ _ _ _ _ _ _ Eb) as [ext1 Hg1].
    destruct Hp as [ext Hp].
    destruct I as (Il & In & If & Im & Ia & Ig & Ib & Io).
    cbn [synth_records] in Es.
    assert (Hr : py_index infos (len done) = Ok r).
    { unfold len. apply nat_py_index. subst infos. rewrite nth_error_app2 by lia. now rewrite Nat.sub_diag. }
    rewrite Hr in Es.
    destruct ids as [is0 it0].
    apply plan_record_ok in E1 as (f0 & s & t & Ef0 & _ & _ & _ & _ & Hst).
    assert (Hrows : rows ++ combine (f :: x) (r :: rs)
                    = (rows ++ [(f, r)]) ++ combine x rs)
      by (cbn [combine]; now rewrite <- app_assoc).
    assert (Hdone : infos = (done ++ [r]) ++ rs)
      by (subst infos; now rewrite <- app_assoc).
    assert (Hlen : len done + 1 = len (done ++ [r]))
      by (rewrite len_app; reflexivity).
    rewrite Hlen in Es. rewrite Hrows.
    assert (Hbr : is_boundary r = (last r =? 1)) by reflexivity.
    destruct (last r =? 1) eqn:El.
    + (* a boundary record *)
      destruct Hst as [[_ (k & g' & _ & Hb1)]|[Hc _]];
        [|apply andb_false_iff in Hc as [Hc|Hc];
          [congruence | apply Z.ltb_ge in Hc; lia]].
      set (st1 := mkSynth (audio ss ++ [f]) (nflushed ss) (files ss)) in *.
      destruct (flush args (fnlist p) st1) as [[e|] st2] eqn:Efl; [discriminate|].
      apply flush_ok in Efl as (t1 & path & y & Et1 & Epath & Esyn & Hst2).
      cbn [audio nflushed files st1] in Et1, Esyn, Hst2.
      set (w := mkWav path 16000 (quantize y)) in *.
      (* the triple read is the triple just listed *)
      assert (Hn : List.length (fnlist bs) = List.length (files ss))
        by (unfold len in Il, If; lia).
      assert (Ht1 : nth_error (fnlist p) (List.length (files ss))
                    = Some (strip_pt f0, fst (filename_split data f0),
                            target_speaker bs)).
      { rewrite Hp, Hg1, Hb1. cbn [fnlist]. rewrite <- Hn.
        apply nth_error_app_some, nth_error_app_some, nth_error_snoc. }
      assert (t1 = (strip_pt f0, fst (filename_split data f0), target_speaker bs)).
      { apply py_index_nat in Et1; [|rewrite In, <- Il; apply len_nonneg].
        rewrite In, <- If in Et1. unfold len in Et1. rewrite Nat2Z.id in Et1.
        congruence. }
      subst t1.
      assert (Io2 : flushed_in_order args data (fnlist p) (rows ++ [(f, r)])
                      (files ss ++ [w])).
      { apply (flushed_in_order_snoc args data (fnlist p) rows (files ss) f r w
                 (strip_pt f0, fst (filename_split data f0), target_speaker bs)
                 f0 path y Io Ig Ib);
          [ exact El | exact Ht1 | exact Ef0 | reflexivity | exact Epath
          | rewrite <- Ia; exact Esyn ]. }
      assert (Hb1l : len (fnlist bs1) = nfiles bs1).
      { rewrite Hb1. cbn [fnlist nfiles]. rewrite len_app, Il. reflexivity. }
      assert (Hb1n : nfiles bs1 = nfiles bs + 1) by (rewrite Hb1; reflexivity).
      assert (Hf2 : len (files st2) = nfiles bs1).
      { rewrite Hst2. cbn [files]. rewrite len_app, If, Hb1n. reflexivity. }
      assert (Hn2 : nflushed st2 = nfiles bs1).
      { rewrite Hst2. cbn [nflushed]. lia. }
      destruct (Z.leb_spec (maxfiles args) (nflushed st2)) as [Lm|Lm].
      * (* the bound is reached *)
        injection Es as <-. right.
        assert (Hfull : maxfiles args <= nfiles bs1) by lia.
        destruct (plan_records_full _ _ _ _ _ _ _ _ Hfull Eb) as [Efl Enl].
        rewrite Efl, Enl. repeat split; try lia; auto.
        apply flushed_in_order_app. rewrite Hst2. exact Io2.
      * eapply (IH x (done ++ [r]) bs1 _ st2); eauto.
        unfold in_lockstep. rewrite Hst2 in *. cbn [audio nflushed files] in *.
        repeat split; auto; try lia.
        -- rewrite pending_app. cbn [pending]. now rewrite Hbr.
        -- rewrite groups_app. cbn [groups]. rewrite Hbr.
           rewrite !length_app. cbn [List.length]. lia.
        -- rewrite map_app, filter_app. cbn [map filter snd]. 
           rewrite Hbr, !length_app. cbn [List.length]. lia.
    + (* an inner record *)
      destruct Hst as [[Hc _]|[_ ->]];
        [apply andb_true_iff in Hc as [Hc _]; congruence|].
      eapply (IH x (done ++ [r]) bs _ _); eauto.
      unfold in_lockstep. cbn [audio nflushed files].
      repeat split; auto.
      * rewrite pending_app. cbn [pending]. now rewrite Hbr, Ia.
      * rewrite groups_app. cbn [groups]. rewrite Hbr.
        now rewrite app_nil_r.
      * rewrite map_app, filter_app. cbn [map filter snd]. 
        rewrite Hbr. now rewrite app_nil_r.
      * now apply flushed_in_order_app.
Qed.

Hypothesis model_keeps_length :
  convert args = true ->
  forall x isource itarget,
    List.length (reverse (forward x isource) itarget) = List.length x.

Lemma lockstep_loop : forall loader bs ss ss' rows,
  plan_loop args data restart bs loader = Ok p ->
  synth_loop args (fnlist p) (itrafos p) (List.length (itrafos bs)) loader ss
  = (None, ss') ->
  in_step bs ss rows ->
  len (files ss') = len (fnlist p)
  /\ flushed_in_order args data (fnlist p)
       (rows ++ stream_rows args (itrafos p) (List.length (itrafos bs)) loader)
       (files ss').
Proof.
  induction loader as [|b rest IH]; intros bs ss ss' rows Eb Es I.
  - simpl in Eb, Es. injection Eb as <-. injection Es as <-.
    destruct I as (Il & _ & If & _ & _ & _ & _ & Io).
    cbn [stream_rows]. rewrite app_nil_r. split; [lia | exact Io].
  - cbn [plan_loop] in Eb. apply bind_ok in Eb as ([bs1 [is1 it1]] & E1 & Eb).
    pose proof (plan_records_itrafos _ _ _ _ _ _ _ _ E1) as Hi1.
    set (bs2 := mkPlan (target_speaker bs1) (fnlist bs1)
                       (itrafos bs1 ++ [(is1, it1)]) (nfiles bs1) (gen bs1)) in *.
    assert (Hgrow : (exists ext, fnlist p = fnlist bs2 ++ ext)
                    /\ (exists ext, itrafos p = itrafos bs2 ++ ext)).
    { destruct (maxfiles args <=? nfiles bs2).
      - injection Eb as <-. split; exists []; now rewrite app_nil_r.
      - eapply plan_loop_grows; eauto. }
    destruct Hgrow as [Hgf [exti Hgi]].
    assert (Hk : nth_error (itrafos p) (List.length (itrafos bs)) = Some (is1, it1)).
    { rewrite Hgi. subst bs2. cbn [itrafos]. rewrite Hi1.
      apply nth_error_app_some, nth_error_snoc. }
    cbn [synth_loop stream_rows] in *. rewrite Hk in *.
    set (x1 := if convert args
               then reverse (forward (map fst b) is1) it1
               else map fst b) in *.
    assert (Hx1 : List.length x1 = List.length b).
    { subst x1. destruct (convert args) eqn:Ec.
      - rewrite model_keeps_length by reflexivity. apply length_map.
      - apply length_map. }
    destruct (mul_window (window args) x1) as [x2|e] eqn:Ew; [|discriminate].
    apply mul_window_length in Ew.
    destruct (synth_records args (fnlist p) x2 0 (map snd b) ss) as [[e|] ss1] eqn:Er;
      [discriminate|].
    destruct (lockstep_records (map snd b) x2 [] bs ([], []) ss bs1 (is1, it1) ss1
                rows (map snd b)) as [I1|(Hm & Hl & Hf & Ho)]; auto.
    + rewrite length_map. congruence.
    + (* the batch ends before the bound *)
      destruct I1 as (Il & In & If & Im & Irest).
      destruct (Z.leb_spec (maxfiles args) (nfiles bs2)) as [L|L];
        [subst bs2; cbn [nfiles] in L; lia|].
      replace (S (List.length (itrafos bs))) with (List.length (itrafos bs2)) in *
        by (subst bs2; cbn [itrafos]; rewrite length_app, Hi1; cbn; lia).
      rewrite app_assoc. apply (IH bs2 ss1 ss'); auto.
      unfold in_lockstep. subst bs2. cbn [fnlist nfiles]. auto.
    + (* the bound is reached in the batch *)
      destruct (Z.leb_spec (maxfiles args) (nfiles bs2)) as [L|L];
        [|subst bs2; cbn [nfiles] in L; lia].
      injection Eb as <-.
      assert (Hend : nth_error (itrafos bs2) (S (List.length (itrafos bs))) = None).
      { apply nth_error_None. subst bs2. cbn [itrafos].
        rewrite length_app, Hi1. cbn. lia. }
      assert (ss' = ss1
              /\ stream_rows args (itrafos bs2) (S (List.length (itrafos bs))) rest = []).
      { destruct rest as [|b' rest']; cbn [synth_loop stream_rows] in *.
        - injection Es as <-. auto.
        - rewrite Hend in *. injection Es as <-. auto. }
      destruct H1 as [-> ->]. rewrite app_nil_r.
      subst bs2. cbn [fnlist nfiles] in *. split; [lia | exact Ho].
Qed.

End Lockstep.

Section FlushOrder.

Context `{RandomSource} `{VCModel}.

(** C7. Every file written has the name made from the triple of its
    rank in the list.  And in a run that ends without an exception, with
    a model that returns as many frames as it is given, there are as
    many files as triples, the file of rank [n] holds the frames up to
    the boundary record of rank [n] of the stream, and the triple of
    rank [n] was listed for the file of that same record. *)
Theorem flush_order :
  forall (args : arguments) (data : dataset) (g : rng) (loader : list batch),
    (forall p n w,
        build_plan args data g loader = Ok p ->
        nth_error (wav_files (run args data g loader)) n = Some w ->
        exists t, nth_error (fnlist p) n = Some t
                  /\ out_path args t = Ok (wav_path w))
    /\ (raised (run args data g loader) = None ->
        (convert args = true ->
         forall x isource itarget,
           List.length (reverse (forward x isource) itarget) = List.length x) ->
        exists p,
          build_plan args data g loader = Ok p
          /\ List.length (wav_files (run args data g loader))
             = List.length (fnlist p)
          /\ flushed_in_order args data (fnlist p)
               (stream_rows args (itrafos p) 0 loader)
               (wav_files (run args data g loader))).
Proof.
  intros args data g loader. split.
  - intros p n w Ep. unfold run. rewrite Ep.
    destruct (write_list (fnlist p)) as [[e|] ls]; [destruct n; discriminate|].
    destruct (synth_loop args (fnlist p) (itrafos p) 0 loader synth_init)
      as [o st] eqn:Es. cbn [wav_files].
    apply named_by_plan_loop in Es.
    + destruct Es as [_ Hw]. apply Hw.
    + split; [reflexivity|]. intros [|k] w0 Hw0; discriminate.
  - unfold run.
    destruct (build_plan args data g loader) as [p|e] eqn:Ep; [|discriminate].
    destruct (write_list (fnlist p)) as [[e|] ls]; [discriminate|].
    destruct (synth_loop args (fnlist p) (itrafos p) 0 loader synth_init)
      as [o st] eqn:Es. cbn [raised wav_files].
    intros -> Hmodel. exists p. split; [reflexivity|].
    destruct (Z.le_gt_cases (maxfiles args) 0) as [Hm|Hm].
    + (* nothing is listed, nothing is written *)
      pose proof (plan_bound _ _ _ _ _ Ep) as [Hl Hb].
      assert (Hn : named_by_plan args (fnlist p) st).
      { eapply named_by_plan_loop; [|exact Es].
        split; [reflexivity|]. intros [|k] w0 Hw0; discriminate. }
      apply named_by_plan_bound in Hn.
      assert (Hf : fnlist p = []).
      { destruct (fnlist p); [reflexivity|]. rewrite len_cons in *.
        pose proof (len_nonneg l). lia. }
      assert (Hs : files st = []).
      { destruct (files st); [reflexivity|]. rewrite Hf, len_cons in Hn.
        pose proof (len_nonneg f). unfold len in Hn at 2. cbn in Hn. lia. }
      rewrite Hs, Hf. split; [reflexivity|].
      intros [|k] w Hw; discriminate.
    + unfold build_plan in Ep.
      destruct (lockstep_loop args data (restart_target args data) p Hmodel loader
                  (plan_init args g) synth_init st []) as [Hlen Ho].
      * exact Ep.
      * exact Es.
      * unfold in_lockstep. cbn. repeat split; try reflexivity; try lia.
        intros [|k] w Hw; discriminate.
      * split; [unfold len in Hlen; lia | exact Ho].
Qed.

End FlushOrder.

Lemma flush_order_witness :
  exists p,
    @build_plan counter_source (demo_args (Some "p2"%string) 5) demo_data 0 demo_loader
    = Ok p
    /\ fnlist p = [("p1_a", "p1", Some "p2"); ("p2_b", "p2", Some "p2")]%string
    /\ map wav_path (wav_files (@run counter_source identity_model
                                  (demo_args (Some "p2"%string) 5) demo_data 0
                                  demo_loader))
       = ["res/p1_a.wav"; "res/p2_b.wav"]%string
    /\ flushed_in_order (demo_args (Some "p2"%string) 5) demo_data (fnlist p)
         (@stream_rows identity_model (demo_args (Some "p2"%string) 5) (itrafos p) 0
            demo_loader)
         (wav_files (@run counter_source identity_model
                       (demo_args (Some "p2"%string) 5) demo_data 0 demo_loader)).
Proof.
  destruct (@flush_order counter_source identity_model
              (demo_args (Some "p2"%string) 5) demo_data 0 demo_loader) as [_ H2].
  destruct H2 as (p & Ep & _ & Ho).
  - reflexivity.
  - intros Hc. discriminate Hc.
  - exists p. split; [exact Ep|].
    assert (E : Ok p = @build_plan counter_source (demo_args (Some "p2"%string) 5)
                         demo_data 0 demo_loader) by (symmetry; exact Ep).
    vm_compute in E. injection E as ->.
    split; [reflexivity|]. split; [reflexivity|]. exact Ho.
Defined.

(** * Further properties *)

(** ** The buffer as a sum of frames *)

Lemma overlap_add_sum stride lchunk frames : forall i y y',
  0 <= stride -> 0 <= i ->
  Forall (fun f => len f = lchunk) frames ->
  (i + len frames - 1) * stride + lchunk <= len y ->
  overlap_add stride i frames y = Ok y' ->
  forall k, (k < List.length y)%nat ->
    (nth k y' 0 == nth k y 0 + ola_sum stride i frames k)%Q.
Proof.
  induction frames as [|x rest IH]; intros i y y' Hs Hi Hf Hy E k Hk.
  - simpl in E. injection E as <-. cbn [ola_sum]. ring.
  - inversion Hf as [|? ? Hx Hrest]; subst.
    rewrite len_cons in Hy. pose proof (len_nonneg rest) as Hr.
    pose proof (len_nonneg x) as Hlx.
    assert (H0 : 0 <= i * stride) by nia.
    assert (H1 : 0 <= len rest * stride) by nia.
    cbn [overlap_add] in E. rewrite iadd_slice_fits in E by lia.
    cbn [bind] in E.
    assert (Hl1 : List.length (add_from y (Z.to_nat (i * stride)) x) = List.length y)
      by apply add_from_length.
    eapply IH with (k := k) in E; eauto; try lia.
    + rewrite E, nth_add_from. cbn [ola_sum].
      assert (Hk1 : Nat.ltb k (List.length y) = true) by (apply Nat.ltb_lt; lia).
      rewrite Hk1, andb_true_r.
      assert (Hxl : Z.of_nat (List.length x) = len x) by reflexivity.
      destruct (Z.leb_spec (i * stride) (Z.of_nat k)) as [A|A];
        destruct (Z.ltb_spec (Z.of_nat k) (i * stride + len x)) as [B|B];
        cbn [andb].
      * assert (Nat.leb (Z.to_nat (i * stride)) k
                && Nat.ltb k (Z.to_nat (i * stride) + List.length x) = true) as ->.
        { apply andb_true_iff; split; [apply Nat.leb_le | apply Nat.ltb_lt]; lia. }
        ring.
      * assert (Nat.ltb k (Z.to_nat (i * stride) + List.length x) = false) as ->
          by (apply Nat.ltb_ge; lia).
        rewrite andb_false_r. ring.
      * assert (Nat.leb (Z.to_nat (i * stride)) k = false) as ->
          by (apply Nat.leb_gt; lia).
        cbn [andb]. ring.
      * assert (Nat.leb (Z.to_nat (i * stride)) k = false) as ->
          by (apply Nat.leb_gt; lia).
        cbn [andb]. ring.
    + unfold len at 3. rewrite Hl1. fold (len y).
      replace (i + 1 + len rest - 1) with (i + (len rest + 1) - 1) by lia.
      exact Hy.
Qed.

Lemma accumulate_sum (frames : list frame) (stride lchunk : Z) (y : list Q) :
  0 <= stride ->
  Forall (fun f => len f = lchunk) frames ->
  accumulate frames stride = Ok y ->
  forall k, (k < List.length y)%nat ->
    (nth k y 0 == ola_sum stride 0 frames k)%Q.
Proof.
  intros Hs Hf Ey k Hk.
  destruct (accumulate_length _ _ _ Ey) as (f0 & rest & Efr & Hlen).
  assert (Hf0 : len f0 = lchunk) by (subst frames; now inversion Hf).
  unfold accumulate in Ey. rewrite Efr in Ey. rewrite <- Efr in Ey.
  apply bind_ok in Ey as (z & Ez & Ey).
  apply zeros_ok in Ez as [Hn Ez].
  assert (Hz : len z = (len frames - 1) * stride + lchunk).
  { subst z. unfold len at 1. rewrite repeat_length. lia. }
  assert (Lz : List.length y = List.length z) by (eapply overlap_add_length; eauto).
  rewrite (overlap_add_sum stride lchunk frames 0 z y Hs (Z.le_refl 0) Hf) ;
    [| lia | exact Ey | lia].
  rewrite Ez, nth_zeros. ring.
Qed.

(** X1.  The buffer of lines 15-17 is the sum, position by position, of the
    frames that cover the position. *)
Theorem overlap_add_formula :
  forall (frames : list frame) (stride lchunk : Z),
    frames <> [] -> 0 <= stride ->
    Forall (fun f => len f = lchunk) frames ->
    exists y,
      accumulate frames stride = Ok y
      /\ len y = (len frames - 1) * stride + lchunk
      /\ forall k, (k < List.length y)%nat ->
           (nth k y 0 == ola_sum stride 0 frames k)%Q.
Proof.
  intros frames stride lchunk Hne Hs Hf.
  destruct (accumulate_fits frames stride lchunk Hne Hs Hf) as [y Ey].
  exists y. split; [exact Ey|]. split.
  - destruct (accumulate_length _ _ _ Ey) as (f0 & rest & Efr & Hlen).
    assert (Hf0 : len f0 = lchunk) by (subst frames; now inversion Hf).
    now rewrite <- Hf0.
  - now apply (accumulate_sum frames stride lchunk).
Qed.

Lemma overlap_add_formula_witness :
  exists y,
    accumulate [[1; 2]; [3; 4]; [5; 6]]%Q 1 = Ok y
    /\ (nth 1 y 0 == 2 + 3)%Q /\ (nth 2 y 0 == 4 + 5)%Q.
Proof.
  destruct (overlap_add_formula [[1; 2]; [3; 4]; [5; 6]]%Q 1 2) as (y & E & L & P).
  - discriminate.
  - lia.
  - repeat constructor.
  - exists y. split; [exact E|].
    assert (L4 : len y = 4) by exact L.
    assert (Hl : List.length y = 4%nat) by (unfold len in L4; lia).
    split.
    + rewrite (P 1%nat) by lia. vm_compute. reflexivity.
    + rewrite (P 2%nat) by lia. vm_compute. reflexivity.
Defined.

(** *** No overlap *)

Lemma ola_sum_before stride frames : forall i k,
  0 <= stride -> Z.of_nat k < i * stride ->
  (ola_sum stride i frames k == 0)%Q.
Proof.
  induction frames as [|f rest IH]; intros i k Hs Hk; cbn [ola_sum].
  - reflexivity.
  - destruct (Z.leb_spec (i * stride) (Z.of_nat k)); [lia|]. cbn [andb].
    rewrite IH by nia. ring.
Qed.

Lemma ola_sum_concat lchunk frames : forall i k,
  Forall (fun f => len f = lchunk) frames ->
  0 <= i -> i * lchunk <= Z.of_nat k ->
  (ola_sum lchunk i frames k
   == nth (k - Z.to_nat (i * lchunk)) (List.concat frames) 0)%Q.
Proof.
  induction frames as [|f rest IH]; intros i k Hf Hi Hk; cbn [ola_sum List.concat].
  - destruct (k - Z.to_nat (i * lchunk))%nat; reflexivity.
  - inversion Hf as [|? ? Hx Hrest]; subst.
    pose proof (len_nonneg f) as Hl.
    assert (Hfl : Z.of_nat (List.length f) = len f) by reflexivity.
    assert (H0 : 0 <= i * len f) by nia.
    destruct (Z.leb_spec (i * len f) (Z.of_nat k)) as [A|A]; [|lia].
    destruct (Z.ltb_spec (Z.of_nat k) (i * len f + len f)) as [B|B]; cbn [andb].
    + rewrite ola_sum_before by nia.
      rewrite app_nth1 by lia. ring.
    + rewrite IH by (auto; nia).
      rewrite app_nth2 by lia.
      replace (k - Z.to_nat (i * len f) - List.length f)%nat
        with (k - Z.to_nat ((i + 1) * len f))%nat by nia.
      ring.
Qed.

(** X2.  With a stride equal to the length of the frames the buffer is the
    concatenation of the frames. *)
Theorem no_overlap_concatenation :
  forall (frames : list frame) (lchunk : Z),
    frames <> [] ->
    Forall (fun f => len f = lchunk) frames ->
    exists y,
      accumulate frames lchunk = Ok y
      /\ List.length y = List.length (List.concat frames)
      /\ forall k, (nth k y 0 == nth k (List.concat frames) 0)%Q.
Proof.
  intros frames lchunk Hne Hf.
  assert (Hl : 0 <= lchunk).
  { destruct frames as [|f0 rest]; [congruence|]. inversion Hf; subst.
    apply len_nonneg. }
  destruct (accumulate_fits frames lchunk lchunk Hne Hl Hf) as [y Ey].
  pose proof (accumulate_sum frames lchunk lchunk y Hl Hf Ey) as P.
  exists y. split; [exact Ey|].
  assert (Hlen : List.length y = List.length (List.concat frames)).
  { apply accumulate_length in Ey as (f0 & rest & Efr & L).
    assert (Hc : Z.of_nat (List.length (List.concat frames)) = len frames * lchunk).
    { clear - Hf. induction Hf as [|f l Hfl _ IH]; [reflexivity|].
      cbn [List.concat]. rewrite length_app, len_cons, Nat2Z.inj_add, IH.
      unfold len in Hfl. lia. }
    assert (len f0 = lchunk) by (subst frames; now inversion Hf).
    unfold len in L at 1. lia. }
  split; [exact Hlen|]. intros k.
  destruct (Nat.lt_ge_cases k (List.length y)) as [Hk|Hk].
  - rewrite (P k Hk), (ola_sum_concat lchunk frames 0 k Hf) by lia.
    cbn. now rewrite Nat.sub_0_r.
  - rewrite !nth_overflow by lia. reflexivity.
Qed.

Lemma no_overlap_concatenation_witness :
  exists y,
    accumulate [[1; 2]; [3; 4]]%Q 2 = Ok y
    /\ List.length y = 4%nat
    /\ (nth 2 y 0 == 3)%Q.
Proof.
  destruct (no_overlap_concatenation [[1; 2]; [3; 4]]%Q 2) as (y & E & L & P).
  - discriminate.
  - repeat constructor.
  - exists y. split; [exact E|]. split; [exact L|]. apply (P 2%nat).
Defined.

(** ** A frame that overruns the buffer *)

(** X3.  The buffer is sized for frames of the length of the first one.  A
    later frame that reaches past its end is refused by the slice
    addition (unless it has length one), and no file is written. *)
Theorem overlong_frame_rejected :
  forall fs (pre : list frame) (f : frame) (post : list frame) filename
         stride sr deemph ymax normalize lchunk,
    pre <> [] -> 0 <= stride ->
    Forall (fun g => len g = lchunk) pre ->
    (len pre + len post) * stride + lchunk < len pre * stride + len f ->
    len f <> 1 ->
    synthesize fs (pre ++ f :: post) filename stride sr deemph ymax normalize
    = (Err RuntimeError, fs).
Proof.
  intros fs pre f post filename stride sr deemph ymax normalize lchunk
         Hne Hs Hpre Hover Hf1.
  assert (Ea : accumulate (pre ++ f :: post) stride = Err RuntimeError).
  { destruct pre as [|f0 pre']; [congruence|].
    pose proof (len_nonneg (f0 :: pre')) as Lp. pose proof (len_nonneg post) as Lq.
    assert (Hf0 : len f0 = lchunk) by now inversion Hpre.
    pose proof (len_nonneg f0) as Lf0.
    set (n := (len (f0 :: pre') + len post) * stride + lchunk) in *.
    assert (Hn : 0 <= n) by (subst n; nia).
    unfold accumulate. cbn [app].
    change (f0 :: pre' ++ f :: post) with ((f0 :: pre') ++ f :: post).
    replace ((len ((f0 :: pre') ++ f :: post) - 1) * stride + len f0) with n
      by (subst n; rewrite len_app, (len_cons f post), Hf0; ring).
    assert (Ez : zeros n = Ok (repeat 0%Q (Z.to_nat n))).
    { unfold zeros. destruct (Z.ltb_spec n 0); [lia | reflexivity]. }
    rewrite Ez. cbn [bind]. rewrite overlap_add_app.
    assert (Lz : len (repeat 0%Q (Z.to_nat n)) = n).
    { unfold len. rewrite repeat_length. lia. }
    assert (Hfit : (0 + len (f0 :: pre') - 1) * stride + lchunk
                   <= len (repeat 0%Q (Z.to_nat n))).
    { rewrite Lz. subst n. nia. }
    destruct (overlap_add_fits stride lchunk (f0 :: pre') 0 (repeat 0%Q (Z.to_nat n))
                Hs (Z.le_refl 0) Hpre Hfit) as [y1 E1].
    rewrite E1. cbn [bind overlap_add].
    assert (L1 : len y1 = n).
    { apply overlap_add_length in E1. unfold len. rewrite E1. exact Lz. }
    rewrite Z.add_0_l.
    assert (Hlo : 0 <= len (f0 :: pre') * stride <= n) by (subst n; nia).
    unfold iadd_slice, slice, slice_index. rewrite L1.
    destruct (Z.ltb_spec (len (f0 :: pre') * stride) 0); [lia|].
    destruct (Z.ltb_spec (len (f0 :: pre') * stride + len f) 0); [lia|].
    rewrite (Z.min_l (len (f0 :: pre') * stride) n) by lia.
    rewrite (Z.min_r (len (f0 :: pre') * stride + len f) n) by lia.
    assert (Nat.eqb (List.length f) (Z.to_nat (n - len (f0 :: pre') * stride)) = false)
      as -> by (apply Nat.eqb_neq; unfold len in *; lia).
    assert (Nat.eqb (List.length f) 1 = false)
      as -> by (apply Nat.eqb_neq; unfold len in *; lia).
    reflexivity. }
  unfold synthesize, prenorm. rewrite Ea. reflexivity.
Qed.

Lemma overlong_frame_rejected_witness :
  synthesize [] ([[1; 1]] ++ [1; 1; 1; 1] :: [])%Q "a.wav" 1 16000 0 1 false
  = (Err RuntimeError, []).
Proof.
  apply (overlong_frame_rejected [] [[1; 1]]%Q [1; 1; 1; 1]%Q [] "a.wav" 1 16000 0 1
           false 2).
  - discriminate.
  - lia.
  - repeat constructor.
  - cbn. lia.
  - cbn. lia.
Defined.

(** ** The de-emphasis coefficient in [synthesize] *)

(** X4.  A coefficient that is not positive is ignored (the filter is never
    called, so its assertion cannot fail), a coefficient of one is the
    identity, and a coefficient above one stops [synthesize] before
    anything is written. *)
Theorem deemph_coefficient_edges :
  forall fs frames filename stride sr deemph ymax normalize,
    ((deemph <= 0 \/ deemph == 1)%Q ->
       synthesize fs frames filename stride sr deemph ymax normalize
       = synthesize fs frames filename stride sr 0 ymax normalize)
    /\ ((1 < deemph)%Q ->
        forall y, accumulate frames stride = Ok y ->
          synthesize fs frames filename stride sr deemph ymax normalize
          = (Err AssertionError, fs)).
Proof.
  intros fs frames filename stride sr deemph ymax normalize. split.
  - intros Hd.
    assert (E : prenorm frames stride deemph = prenorm frames stride 0).
    { unfold prenorm. destruct (accumulate frames stride) as [y|e]; [|reflexivity].
      cbn [bind]. change (Qltb 0 0) with false. cbn iota.
      destruct Hd as [Hd|Hd].
      - assert (Qltb 0 deemph = false) as ->; [|reflexivity].
        unfold Qltb. apply Qle_bool_iff in Hd. now rewrite Hd.
      - destruct (Qltb 0 deemph); [|reflexivity].
        unfold deemphasis.
        assert (Qle_bool 0 deemph = true) as ->
          by (apply Qle_bool_iff; rewrite Hd; discriminate).
        assert (Qle_bool deemph 1 = true) as ->
          by (apply Qle_bool_iff; rewrite Hd; apply Qle_refl).
        assert (Qeq_bool deemph 1 = true) as -> by (now apply Qeq_bool_iff).
        cbn. now rewrite orb_true_r. }
    unfold synthesize. now rewrite E.
  - intros Hd y Ey. unfold synthesize, prenorm. rewrite Ey. cbn [bind].
    assert (Qltb 0 deemph = true) as ->.
    { apply Qltb_lt. apply Qlt_trans with 1%Q; [reflexivity | exact Hd]. }
    unfold deemphasis.
    assert (Qle_bool deemph 1 = false) as ->.
    { destruct (Qle_bool deemph 1) eqn:E; [|reflexivity].
      apply Qle_bool_iff in E. now apply Qlt_not_le in Hd. }
    rewrite andb_false_r. reflexivity.
Qed.

Lemma deemph_coefficient_edges_witness :
  synthesize [] [[1; 2]]%Q "a.wav" 1 16000 (- (3)) 1 false
  = synthesize [] [[1; 2]]%Q "a.wav" 1 16000 0 1 false
  /\ synthesize [] [[1; 2]]%Q "a.wav" 1 16000 2 1 false = (Err AssertionError, []).
Proof.
  destruct (deemph_coefficient_edges [] [[1; 2]]%Q "a.wav" 1 16000 (- (3)) 1 false)
    as [H1 _].
  destruct (deemph_coefficient_edges [] [[1; 2]]%Q "a.wav" 1 16000 2 1 false)
    as [_ H2].
  split.
  - apply H1. left. discriminate.
  - apply (H2 eq_refl [0 + 1; 0 + 2]%Q). reflexivity.
Defined.

(** ** The closed form of the filter *)





(** ** The range of the samples written *)








(** ** Silence *)

Lemma all_zero_nth (l : list Q) :
  (forall k, (nth k l 0 == 0)%Q) -> Forall (fun v => v == 0)%Q l.
Proof.
  intros Hk. apply Forall_forall. intros v Hv.
  apply (In_nth _ _ 0%Q) in Hv as (k & _ & <-). apply Hk.
Qed.

Lemma np_sum_zero (l : list Q) :
  Forall (fun v => v == 0)%Q l -> (np_sum l == 0)%Q.
Proof.
  induction 1 as [|v l Hv _ IH]; [reflexivity|].
  rewrite np_sum_cons, Hv, IH. ring.
Qed.

Lemma fold_max_zero (t : list Q) : forall h,
  (h == 0)%Q -> Forall (fun v => v == 0)%Q t -> (fold_left Qmax t h == 0)%Q.
Proof.
  induction t as [|a t IH]; intros h Hh Ht; cbn [fold_left]; [exact Hh|].
  inversion Ht as [|? ? Ha Ht']; subst. apply IH; [|exact Ht'].
  rewrite Hh, Ha. apply Q.max_l. apply Qle_refl.
Qed.

Lemma to_int16_zero (s : Q) : (s == 0)%Q -> to_int16 (s * 32767) = 0.
Proof.
  intros Hs. unfold Qeq in Hs. simpl in Hs.
  assert (Hn : Qnum s = 0) by lia.
  unfold to_int16, Qtrunc. destruct s as [n d]. simpl in *. subst n. reflexivity.
Qed.

Lemma deemphasis_zero (x : list Q) alpha y :
  Forall (fun v => v == 0)%Q x -> deemphasis x alpha = Ok y ->
  Forall (fun v => v == 0)%Q y.
Proof.
  intros Hx. unfold deemphasis. destruct (negb _); [discriminate|].
  destruct (_ || _); intros E; injection E as <-; [exact Hx|].
  pose proof (deemph_fold_spec alpha x (List.length x - 1) (Nat.le_refl _)) as Hrec.
  cbv zeta in Hrec.
  set (y := fold_left (deemph_step alpha x) (seq 1 (List.length x - 1)) x) in *.
  apply all_zero_nth.
  induction k as [|k IH]; rewrite Hrec.
  - apply nth_zero_frame, Hx.
  - destruct (_ && _).
    + replace (S k - 1)%nat with k by lia.
      rewrite IH, (nth_zero_frame x _ Hx). ring.
    + apply nth_zero_frame, Hx.
Qed.

(** X7.  Frames of zeros give a waveform of zeros and a file of zeros, in
    either mode: normalization does not divide by the zero peak. *)
Theorem silence_stays_silent :
  forall fs (frames : list frame) filename stride sr deemph ymax normalize lchunk,
    frames <> [] -> 0 <= stride ->
    Forall (fun f => len f = lchunk) frames ->
    Forall (Forall (fun v => v == 0)%Q) frames ->
    (deemph <= 1)%Q ->
    (normalize = true -> 0 < lchunk) ->
    (normalize = false -> (0 <= ymax)%Q) ->
    exists w,
      synthesize fs frames filename stride sr deemph ymax normalize
      = (Ok w, fs ++ [mkWav filename sr (repeat 0 (List.length w))])
      /\ Forall (fun v => v == 0)%Q w.
Proof.
  intros fs frames filename stride sr deemph ymax normalize lchunk
         Hne Hs Hf Hz Hd Hn Hc.
  destruct (accumulate_fits frames stride lchunk Hne Hs Hf) as [y0 Ey0].
  assert (Z0 : Forall (fun v => v == 0)%Q y0).
  { pose proof Ey0 as Ea. unfold accumulate in Ea.
    destruct frames as [|f0 rest] eqn:Efr; [congruence|]. rewrite <- Efr in *.
    apply bind_ok in Ea as (z & Ez & Ea). apply zeros_ok in Ez as [Hn0 Ez].
    assert (Hf0 : len f0 = lchunk) by (rewrite Efr in Hf; now inversion Hf).
    apply all_zero_nth. intros k.
    rewrite (overlap_add_zero_frames stride lchunk frames 0 z y0 Hs (Z.le_refl 0)
               Hf Hz); [| |exact Ea].
    - rewrite Ez. rewrite nth_zeros. reflexivity.
    - subst z. unfold len at 2. rewrite repeat_length. lia. }
  assert (Hlen0 : len y0 = (len frames - 1) * stride + lchunk).
  { apply accumulate_length in Ey0 as (f0 & rest & Efr & L).
    assert (len f0 = lchunk) by (subst frames; now inversion Hf). lia. }
  assert (exists buf, prenorm frames stride deemph = Ok buf
                      /\ Forall (fun v => v == 0)%Q buf
                      /\ List.length buf = List.length y0) as (buf & Eb & Zb & Lb).
  { unfold prenorm. rewrite Ey0. cbn [bind].
    destruct (Qltb 0 deemph) eqn:E0; [|exists y0; auto].
    apply Qltb_lt in E0.
    destruct (deemphasis y0 deemph) as [b|e] eqn:Ed.
    - exists b. split; [reflexivity|]. split.
      + eapply deemphasis_zero; eauto.
      + eapply deemphasis_length; eauto.
    - exfalso. unfold deemphasis in Ed.
      assert (Qle_bool 0 deemph = true) as R0
        by (apply Qle_bool_iff; now apply Qlt_le_weak).
      assert (Qle_bool deemph 1 = true) as R1 by now apply Qle_bool_iff.
      rewrite R0, R1 in Ed. cbn in Ed. destruct (_ || _); discriminate. }
  assert (exists w, finalize normalize ymax buf = Ok w
                    /\ Forall (fun v => v == 0)%Q w) as (w & Ew & Zw).
  { unfold finalize. destruct normalize.
    - set (c := map (fun s => (s - np_mean buf)%Q) buf).
      assert (Zc : Forall (fun v => v == 0)%Q c).
      { subst c. apply Forall_forall. intros v Hv.
        apply in_map_iff in Hv as (s & <- & Hs0).
        rewrite Forall_forall in Zb. rewrite (Zb s Hs0).
        rewrite (np_mean_zero buf (np_sum_zero buf ltac:(now apply Forall_forall))).
        ring. }
      assert (Za : Forall (fun v => v == 0)%Q (map Qabs c)).
      { apply Forall_forall. intros v Hv.
        apply in_map_iff in Hv as (s & <- & Hs0).
        rewrite Forall_forall in Zc. rewrite (Zc s Hs0). reflexivity. }
      destruct (map Qabs c) as [|h t] eqn:Ec.
      + exfalso. specialize (Hn eq_refl).
        apply (f_equal (@List.length Q)) in Ec. subst c.
        rewrite !length_map in Ec. cbn in Ec.
        pose proof (len_nonneg frames). destruct frames; [congruence|].
        rewrite len_cons in *. pose proof (len_nonneg frames).
        unfold len in Hlen0 at 1. nia.
      + cbn [np_max bind]. inversion Za as [|? ? Hh Ht]; subst.
        assert (Qltb 0 (fold_left Qmax t h) = false) as ->.
        { destruct (Qltb 0 (fold_left Qmax t h)) eqn:E; [|reflexivity].
          apply Qltb_lt in E. rewrite (fold_max_zero t h Hh Ht) in E.
          now apply Qlt_irrefl in E. }
        exists c. auto.
    - eexists. split; [reflexivity|]. apply Forall_forall. intros v Hv.
      apply in_map_iff in Hv as (s & <- & Hs0).
      rewrite Forall_forall in Zb. specialize (Zb s Hs0). specialize (Hc eq_refl).
      unfold clip. rewrite Zb.
      rewrite (Q.max_l 0 (- ymax)).
      + apply Q.min_l. exact Hc.
      + apply (Qopp_le_compat 0 ymax) in Hc. exact Hc. }
  exists w. split; [|exact Zw].
  assert (Hq : quantize w = repeat 0 (List.length w)).
  { unfold quantize. clear - Zw. induction Zw as [|v l Hv _ IH]; [reflexivity|].
    cbn [map List.length repeat]. rewrite (to_int16_zero v Hv), IH. reflexivity. }
  unfold synthesize. rewrite Eb. cbn [bind]. rewrite Ew.
  unfold wavfile_write. now rewrite Hq.
Qed.

Lemma silence_stays_silent_witness :
  exists w,
    synthesize [] [[0; 0]; [0; 0]]%Q "a.wav" 1 16000 (1 # 2) (98 # 100) true
    = (Ok w, [mkWav "a.wav" 16000 [0; 0; 0]])
    /\ Forall (fun v => v == 0)%Q w.
Proof.
  destruct (silence_stays_silent [] [[0; 0]; [0; 0]]%Q "a.wav" 1 16000 (1 # 2)
              (98 # 100) true 2) as (w & E & Z).
  - discriminate.
  - lia.
  - repeat constructor.
  - repeat constructor; reflexivity.
  - discriminate.
  - intros _. lia.
  - discriminate.
  - exists w. split; [|exact Z].
    assert (L : List.length w = 3%nat).
    { assert (E' := E). vm_compute in E'. injection E' as <- . reflexivity. }
    rewrite L in E. exact E.
Defined.

(** ** The names of the files *)

Lemma has_slash_append (a b : string) :
  has_slash (append a b) = has_slash a || has_slash b.
Proof.
  induction a as [|c a IH]; cbn [append has_slash]; [reflexivity|].
  rewrite IH. now rewrite orb_assoc.
Qed.

Lemma basename_no_slash (s : string) : has_slash s = false -> basename s = s.
Proof.
  destruct s as [|c s]; [reflexivity|]. cbn [has_slash basename].
  intros E. apply orb_false_iff in E as [Ec Es]. now rewrite Es, Ec.
Qed.

Lemma basename_has_no_slash (s : string) : has_slash (basename s) = false.
Proof.
  induction s as [|c s IH]; [reflexivity|]. cbn [basename].
  destruct (has_slash s) eqn:Es; [exact IH|].
  destruct (Ascii.eqb c "/") eqn:Ec; [exact Es|].
  cbn [has_slash]. now rewrite Ec, Es.
Qed.

Lemma basename_after_slash (d n : string) :
  basename (append d (String "/" n)) = basename n.
Proof.
  induction d as [|c d IH]; cbn [append].
  - cbn [basename]. destruct (has_slash n) eqn:En; [reflexivity|].
    cbn. symmetry. now apply basename_no_slash.
  - cbn [basename]. rewrite has_slash_append. cbn [has_slash].
    rewrite Ascii.eqb_refl. cbn [orb]. rewrite orb_true_r. exact IH.
Qed.

Lemma string_append_assoc (a b c : string) :
  append (append a b) c = append a (append b c).
Proof.
  induction a as [|x a IH]; cbn [append]; [reflexivity|]. now rewrite IH.
Qed.

Lemma ends_with_slash_split (d : string) :
  ends_with_slash d = true -> exists d', d = append d' (String "/" EmptyString).
Proof.
  induction d as [|c d IH]; [discriminate|].
  destruct d as [|c' d'].
  - cbn. intros E. apply Ascii.eqb_eq in E as ->. now exists EmptyString.
  - intros E. change (ends_with_slash (String c' d') = true) in E.
    destruct (IH E) as [p Hp]. exists (String c p). cbn [append]. now rewrite Hp.
Qed.

Lemma basename_path_join (d n : string) :
  has_slash n = false -> basename (path_join d n) = n.
Proof.
  intros Hn. unfold path_join.
  assert (Hb : basename n = n) by now apply basename_no_slash.
  assert (E : path_join d n
              = match d with
                | EmptyString => n
                | _ => if ends_with_slash d then append d n
                       else append d (String "/" n)
                end).
  { unfold path_join. destruct n as [|c n']; [reflexivity|].
    cbn [has_slash] in Hn. apply orb_false_iff in Hn as [Hc _].
    destruct c as [[] [] [] [] [] [] [] []]; try reflexivity. discriminate. }
  fold (path_join d n). rewrite E.
  destruct d as [|c d']; [exact Hb|].
  destruct (ends_with_slash (String c d')) eqn:Es.
  - destruct (ends_with_slash_split _ Es) as [p ->].
    rewrite string_append_assoc. cbn [append].
    now rewrite basename_after_slash.
  - now rewrite basename_after_slash.
Qed.

(** X8.  A file is always written in [path_out] itself, under the base name
    of the listed file followed, when converting, by [_to_] and the
    target speaker (free of slashes), and by [.wav]. *)
Theorem out_file_name :
  forall (args : arguments) (fn source : string) (target : key) (p : string),
    out_path args (fn, source, target) = Ok p ->
    (convert args = false ->
       p = path_join (path_out args) (append (basename fn) ".wav")
       /\ basename p = append (basename fn) ".wav")
    /\ (forall t, convert args = true -> target = Some t -> has_slash t = false ->
          basename p = append (append (basename fn) (append "_to_" t)) ".wav").
Proof.
  intros args fn source target p E. unfold out_path in E. split.
  - intros Hc. rewrite Hc in E. cbn [bind] in E. injection E as <-.
    split; [reflexivity|]. apply basename_path_join.
    rewrite has_slash_append, basename_has_no_slash. reflexivity.
  - intros t Hc -> Ht. rewrite Hc in E. cbn [bind] in E. injection E as <-.
    apply basename_path_join.
    rewrite !has_slash_append, basename_has_no_slash, Ht. reflexivity.
Qed.

Lemma out_file_name_witness :
  basename "out/dir/p1_a_to_p2.wav" = "p1_a_to_p2.wav"%string.
Proof.
  destruct (out_file_name (mkArgs None 1 true false 1 "out/dir" [])
              "data/p1_a" "p1" (Some "p2"%string) "out/dir/p1_a_to_p2.wav" eq_refl)
    as [_ H].
  apply (H "p2"%string); reflexivity.
Defined.

(** X9.  The directory of the listed file and its source speaker play no
    part in the name: two listed files with the same base name and
    target are written to the same path. *)
Theorem out_path_ignores_directory :
  forall (args : arguments) (d fn s1 s2 : string) (target : key),
    out_path args (append d (String "/" fn), s1, target)
    = out_path args (fn, s2, target).
Proof.
  intros args d fn s1 s2 target. unfold out_path.
  now rewrite basename_after_slash.
Qed.

(** ** The file of the list *)

(** X10.  The lines written are those of the triples that precede the first
    triple without a target speaker; the writing raises ([TypeError])
    exactly when there is such a triple. *)
Theorem write_list_lines :
  forall (l : list triple),
    Forall2 (fun s t => list_line t = Ok s) (snd (write_list l))
            (firstn (List.length (snd (write_list l))) l)
    /\ (fst (write_list l) = None <-> Forall (fun t : triple => snd t <> None) l)
    /\ (fst (write_list l) = None -> List.length (snd (write_list l)) = List.length l)
    /\ (forall e, fst (write_list l) = Some e ->
          e = TypeError
          /\ exists t, nth_error l (List.length (snd (write_list l))) = Some t
                       /\ snd t = None).
Proof.
  induction l as [|t l IH].
  - cbn. repeat split; auto; try constructor; discriminate.
  - destruct IH as (I1 & I2 & I3 & I4).
    cbn [write_list]. destruct t as [[fn src] [tg|]]; cbn [list_line].
    + destruct (write_list l) as [e ls]. cbn [fst snd List.length firstn] in *.
      split; [constructor; [reflexivity | exact I1]|].
      split; [|split].
      * rewrite I2. split.
        -- intros Hl. constructor; [discriminate | exact Hl].
        -- intros Hl. now inversion Hl.
      * intros He. now rewrite I3.
      * intros e0 He. exact (I4 e0 He).
    + cbn [fst snd List.length firstn].
      split; [constructor|]. split; [|split].
      * split; [discriminate|]. intros Hl. inversion Hl as [|? ? Hn _]. now cbn in Hn.
      * discriminate.
      * intros e0 He. injection He as <-. split; [reflexivity|].
        eexists. split; reflexivity.
Qed.

Lemma write_list_lines_witness :
  snd (write_list [("a", "p1", Some "p2"); ("b", "p2", None); ("c", "p1", Some "p1")]%string)
  = [append "a" (append tab (append "p1" (append tab (append "p2" newline))))]
  /\ fst (write_list [("a", "p1", Some "p2"); ("b", "p2", None);
                      ("c", "p1", Some "p1")]%string) = Some TypeError.
Proof.
  destruct (write_list_lines [("a", "p1", Some "p2"); ("b", "p2", None);
                              ("c", "p1", Some "p1")]%string) as (_ & _ & _ & H).
  split; [reflexivity|].
  destruct (H TypeError eq_refl) as [_ _]. reflexivity.
Defined.

(** ** The batches read by the plan builder *)

Section PlanHistory.

Context `{RandomSource}.
Variable args : arguments.
Variable data : dataset.
Variable restart : rng -> result (key * rng).

(** A property of the state and of the records read so far. *)
Variable I : plan_state -> list info -> Prop.

Hypothesis I_record :
  forall st ids r st' ids' hist,
    I st hist ->
    plan_record args data restart (st, ids) r = Ok (st', ids') ->
    I st' (hist ++ [r]).

Hypothesis I_batch :
  forall st ids hist,
    I st hist ->
    I (mkPlan (target_speaker st) (fnlist st) (itrafos st ++ [ids])
              (nfiles st) (gen st)) hist.



End PlanHistory.

Section PlanCount.

Context `{RandomSource}.


End PlanCount.


(** ** The speaker ids of the plan *)

Section PlanIds.

Context `{RandomSource}.
Variable args : arguments.
Variable data : dataset.
Variable restart : rng -> result (key * rng).

Local Abbreviation source_of := (source_id data).

Lemma plan_records_ids rs : forall st isource itarget st' isource' itarget',
  plan_records args data restart (st, (isource, itarget)) rs
  = Ok (st', (isource', itarget')) ->
  exists ns nt,
    isource' = isource ++ ns /\ itarget' = itarget ++ nt
    /\ Forall2 source_of ns rs /\ List.length nt = List.length rs.
Proof.
  induction rs as [|r rs IH]; intros st isource itarget st' isource' itarget' E.
  - simpl in E. injection E as <- <- <-. exists [], [].
    rewrite !app_nil_r. repeat split; constructor.
  - cbn [plan_records] in E. apply bind_ok in E as ([st1 [is1 it1]] & E1 & E).
    apply plan_record_ok in E1 as (f & s & t & Ef & Es & _ & -> & -> & _).
    apply IH in E as (ns & nt & -> & -> & Hs & Hl).
    exists (s :: ns), (t :: nt). rewrite <- !app_assoc. cbn [app List.length].
    repeat split; auto. constructor; [|exact Hs]. exists f. auto.
Qed.

Lemma plan_loop_ids loader : forall st p,
  plan_loop args data restart st loader = Ok p ->
  exists new,
    itrafos p = itrafos st ++ new
    /\ Forall2 (fun (ids : list Z * list Z) (b : batch) =>
                  Forall2 source_of (fst ids) (map snd b)
                  /\ List.length (snd ids) = List.length b)
               new (firstn (List.length new) loader).
Proof.
  induction loader as [|b rest IH]; intros st p E.
  - simpl in E. injection E as <-. exists []. rewrite app_nil_r. split; constructor.
  - cbn [plan_loop] in E. apply bind_ok in E as ([st1 [is1 it1]] & E1 & E).
    pose proof (plan_records_itrafos _ _ _ _ _ _ _ _ E1) as Hi1.
    apply plan_records_ids in E1 as (ns & nt & Hns & Hnt & Hs & Hl).
    cbn [app] in Hns, Hnt. subst is1 it1.
    assert (Hb : Forall2 source_of (fst (ns, nt)) (map snd b)
                 /\ List.length (snd (ns, nt)) = List.length b).
    { cbn [fst snd]. split; [exact Hs|]. now rewrite Hl, length_map. }
    destruct (maxfiles args <=? _).
    + injection E as <-. exists [(ns, nt)]. cbn [itrafos]. rewrite Hi1.
      split; [reflexivity|]. cbn [List.length firstn]. constructor; [exact Hb|constructor].
    + apply IH in E as (new & Hp & Hnew). cbn [itrafos] in Hp.
      exists ((ns, nt) :: new). rewrite Hp, Hi1, <- app_assoc.
      split; [reflexivity|]. cbn [List.length firstn]. constructor; [exact Hb | exact Hnew].
Qed.

End PlanIds.

Section PlanIdsClaims.

Context `{RandomSource}.

(** X12.  The plan has one pair of id lists per batch read; in each pair the
    source ids are, record by record, the ids of the speakers of the
    records' files, and there are as many target ids as records. *)
Theorem plan_ids_per_record :
  forall (args : arguments) (data : dataset) (g : rng) (loader : list batch)
         (p : plan_state),
    build_plan args data g loader = Ok p ->
    Forall2 (fun (ids : list Z * list Z) (b : batch) =>
               Forall2 (source_id data) (fst ids) (map snd b)
               /\ List.length (snd ids) = List.length b)
            (itrafos p) (firstn (List.length (itrafos p)) loader).
Proof.
  intros args data g loader p E. unfold build_plan in E.
  apply plan_loop_ids in E as (new & Hp & Hnew).
  cbn [plan_init itrafos app] in Hp. rewrite Hp. exact Hnew.
Qed.

(** X13.  With a forced target speaker every target id of the plan is the id
    of that speaker. *)
Theorem forced_target_ids :
  forall (args : arguments) (data : dataset) (g : rng) (loader : list batch)
         (p : plan_state) (t : string),
    force_target_speaker args = Some t ->
    build_plan args data g loader = Ok p ->
    forall ids v, In ids (itrafos p) -> In v (snd ids) ->
                  dict_get (speakers data) (Some t) = Ok v.
Proof.
  intros args data g loader p t Hf E. unfold build_plan in E.
  assert (Hrec : forall rs st isource itarget st' isource' itarget',
             target_speaker st = Some t ->
             (forall v, In v itarget -> dict_get (speakers data) (Some t) = Ok v) ->
             plan_records args data (restart_target args data)
                          (st, (isource, itarget)) rs
             = Ok (st', (isource', itarget')) ->
             target_speaker st' = Some t
             /\ forall v, In v itarget' -> dict_get (speakers data) (Some t) = Ok v).
  { induction rs as [|r rs IH]; intros st is0 it0 st' is' it' Ht Hv Er.
    - simpl in Er. injection Er as <- <- <-. auto.
    - cbn [plan_records] in Er. apply bind_ok in Er as ([st1 [is1 it1]] & E1 & Er).
      apply plan_record_ok in E1 as (f & s & v0 & _ & Es & Et & -> & -> & Hst).
      rewrite Ht in Et.
      eapply IH; [| |exact Er].
      + destruct Hst as [[_ (k & g' & Hr & ->)]|[_ ->]]; [|exact Ht].
        rewrite (restart_target_forced args data _ t Hf (dict_get_nonempty _ _ _ Es))
          in Hr.
        now injection Hr as <- _.
      + intros v Hin. apply in_app_or in Hin as [Hin|[<-|[]]]; auto. }
  assert (Hloop : forall loader st p,
             target_speaker st = Some t ->
             (forall ids v, In ids (itrafos st) -> In v (snd ids) ->
                            dict_get (speakers data) (Some t) = Ok v) ->
             plan_loop args data (restart_target args data) st loader = Ok p ->
             forall ids v, In ids (itrafos p) -> In v (snd ids) ->
                           dict_get (speakers data) (Some t) = Ok v).
  { clear E loader p. induction loader as [|b rest IH]; intros st p Ht Hv El.
    - simpl in El. now injection El as <-.
    - cbn [plan_loop] in El. apply bind_ok in El as ([st1 [is1 it1]] & E1 & El).
      pose proof (plan_records_itrafos _ _ _ _ _ _ _ _ E1) as Hi1.
      apply Hrec in E1 as [Ht1 Hv1]; [|exact Ht|intros v []].
      set (st2 := mkPlan (target_speaker st1) (fnlist st1)
                         (itrafos st1 ++ [(is1, it1)]) (nfiles st1) (gen st1)) in *.
      assert (Hv2 : forall ids v, In ids (itrafos st2) -> In v (snd ids) ->
                                  dict_get (speakers data) (Some t) = Ok v).
      { subst st2. cbn [itrafos]. rewrite Hi1. intros ids v Hin Hvin.
        apply in_app_or in Hin as [Hin|[<-|[]]]; [eapply Hv; eauto | now apply Hv1]. }
      destruct (maxfiles args <=? nfiles st2).
      + now injection El as <-.
      + eapply IH; [|exact Hv2|exact El]. exact Ht1. }
  eapply Hloop; [| |exact E].
  - unfold plan_init. now rewrite Hf.
  - intros ids v [].
Qed.

(** X14.  Without a forced target speaker every target listed after the first
    is a key of the speaker table (the one drawn). *)
Theorem drawn_targets_are_speakers :
  forall (args : arguments) (data : dataset) (g : rng) (loader : list batch)
         (p : plan_state),
    force_target_speaker args = None ->
    build_plan args data g loader = Ok p ->
    forall n tr, nth_error (fnlist p) (S n) = Some tr ->
                 In (snd tr) (dict_keys (speakers data)).
Proof.
  intros args data g loader p Hf E. unfold build_plan in E.
  refine (proj2 (plan_loop_invariant args data _
            (fun s => (fnlist s <> [] -> In (target_speaker s) (dict_keys (speakers data)))
                      /\ forall n tr, nth_error (fnlist s) (S n) = Some tr ->
                                      In (snd tr) (dict_keys (speakers data)))
            _ _ loader _ p _ E)).
  - intros s0 [is0 it0] r s1 [is1 it1] [Ht Hl] Er.
    apply plan_record_ok in Er as (f & s & t & _ & _ & _ & _ & _ & [[_ Hr]|[_ ->]]);
      [|auto].
    destruct Hr as (k & g' & Hr & ->). cbn [fnlist target_speaker]. split.
    + intros _. unfold restart_target in Hr.
      apply bind_ok in Hr as ([k0 g0] & _ & Hr).
      apply bind_ok in Hr as (t0 & Ht0 & Hr). rewrite Hf in Hr.
      injection Hr as <- _.
      unfold py_index in Ht0. destruct (_ <? 0); [discriminate|].
      destruct (nth_error _ _) eqn:En; [|discriminate].
      injection Ht0 as <-. eapply nth_error_In; eauto.
    + intros n tr Hn.
      destruct (Nat.lt_ge_cases (S n) (List.length (fnlist s0))) as [L|L].
      * rewrite nth_error_app1 in Hn by exact L. eapply Hl; eauto.
      * rewrite nth_error_app2 in Hn by exact L.
        destruct (S n - List.length (fnlist s0))%nat as [|d] eqn:Ed;
          [|destruct d; discriminate].
        injection Hn as <-. cbn [snd]. apply Ht.
        intros Hnil. rewrite Hnil in L, Ed. cbn in Ed. discriminate.
  - intros s0 ids HP. exact HP.
  - cbn. split; [congruence|]. intros n tr Hn. destruct n; discriminate.
Qed.

End PlanIdsClaims.

Lemma plan_ids_per_record_witness :
  exists p,
    @build_plan counter_source (demo_args (Some "p2"%string) 5) demo_data 0 demo_loader
    = Ok p
    /\ Forall2 (fun (ids : list Z * list Z) (b : batch) =>
                   Forall2 (source_id demo_data) (fst ids) (map snd b)
                   /\ List.length (snd ids) = List.length b)
                (itrafos p) (firstn 1 demo_loader).
Proof.
  eexists. split; [reflexivity|].
  exact (@plan_ids_per_record counter_source (demo_args (Some "p2"%string) 5)
           demo_data 0 demo_loader _ eq_refl).
Defined.

Lemma forced_target_ids_witness :
  dict_get (speakers demo_data) (Some "p2"%string) = Ok 1.
Proof.
  apply (@forced_target_ids counter_source (demo_args (Some "p2"%string) 5) demo_data 0
           demo_loader _ "p2"%string eq_refl eq_refl ([0; 0; 1], [1; 1; 1]) 1).
  - left. reflexivity.
  - left. reflexivity.
Defined.

Lemma drawn_targets_are_speakers_witness :
  exists p tr,
    @build_plan counter_source (demo_args None 5) demo_data_null 0 demo_loader = Ok p
    /\ nth_error (fnlist p) 1 = Some tr
    /\ In (snd tr) (dict_keys (speakers demo_data_null)).
Proof.
  eexists. eexists. split; [reflexivity|]. split; [reflexivity|].
  apply (@drawn_targets_are_speakers counter_source (demo_args None 5) demo_data_null 0
           demo_loader _ eq_refl eq_refl 0%nat).
  reflexivity.
Defined.

(** ** Runs that write nothing *)

Section EmptyRuns.

Context `{RandomSource} `{VCModel}.

Lemma run_without_list (args : arguments) (data : dataset) (g : rng)
  (loader : list batch) p :
  build_plan args data g loader = Ok p -> fnlist p = [] ->
  list_file (run args data g loader) = []
  /\ wav_files (run args data g loader) = [].
Proof.
  intros Ep Hf. unfold run. rewrite Ep, Hf. cbn [write_list].
  destruct (synth_loop args [] (itrafos p) 0 loader synth_init) as [o st] eqn:Es.
  cbn [list_file wav_files]. split; [reflexivity|].
  apply named_by_plan_loop in Es.
  - apply named_by_plan_bound in Es. destruct (files st); [reflexivity|].
    rewrite len_cons in Es. pose proof (len_nonneg f).
    change (len (@nil triple)) with 0 in Es. lia.
  - split; [reflexivity|]. intros [|k] w Hw; discriminate.
Qed.

Lemma first_target_null (args : arguments) (data : dataset) (g : rng)
  (loader : list batch) p :
  force_target_speaker args = None ->
  build_plan args data g loader = Ok p ->
  forall tr, nth_error (fnlist p) 0 = Some tr -> snd tr = None.
Proof.
  intros Hf E. unfold build_plan in E.
  refine (proj2 (plan_loop_invariant args data _
            (fun s => (fnlist s = [] -> target_speaker s = None)
                      /\ forall tr, nth_error (fnlist s) 0 = Some tr -> snd tr = None)
            _ _ loader _ p _ E)).
  - intros s0 [is0 it0] r s1 [is1 it1] [Hn Hfirst] Er.
    apply plan_record_ok in Er as (f & s & t & _ & _ & _ & _ & _ & [[_ Hr]|[_ ->]]);
      [|auto].
    destruct Hr as (k & g' & _ & ->). cbn. split.
    + intros N. now apply app_eq_nil in N as [_ N].
    + intros tr Htr. destruct (fnlist s0) as [|tr0 l0] eqn:El.
      * cbn in Htr. injection Htr as <-. cbn. now apply Hn.
      * cbn in Htr. apply Hfirst. exact Htr.
  - intros s0 ids HP. exact HP.
  - cbn. unfold plan_init. rewrite Hf. split; [reflexivity|]. discriminate.
Qed.

(** X15.  Without a forced target speaker the script writes nothing: no line
    of the list and no audio file.  (The first target is [None]: the
    speaker table rejects it, or the first line of the list does.) *)
Theorem unforced_run_writes_nothing :
  forall (args : arguments) (data : dataset) (g : rng) (loader : list batch),
    force_target_speaker args = None ->
    list_file (run args data g loader) = []
    /\ wav_files (run args data g loader) = [].
Proof.
  intros args data g loader Hf.
  destruct (build_plan args data g loader) as [p|e] eqn:Ep.
  - destruct (fnlist p) as [|tr l] eqn:El.
    + now apply (run_without_list args data g loader p).
    + assert (Hn : snd tr = None).
      { apply (first_target_null args data g loader p Hf Ep). now rewrite El. }
      unfold run. rewrite Ep, El. destruct tr as [[fn src] tgt]. cbn in Hn. subst tgt.
      cbn. auto.
  - unfold run. rewrite Ep. cbn. auto.
Qed.

(** X16.  With [maxfiles <= 0] the builder still reads the first batch, but
    nothing is listed and nothing is written. *)
Theorem no_files_allowed :
  forall (args : arguments) (data : dataset) (g : rng) (loader : list batch),
    maxfiles args <= 0 ->
    list_file (run args data g loader) = []
    /\ wav_files (run args data g loader) = []
    /\ forall p, build_plan args data g loader = Ok p ->
                 fnlist p = [] /\ (List.length (itrafos p) <= 1)%nat.
Proof.
  intros args data g loader Hm.
  assert (Hp : forall p, build_plan args data g loader = Ok p ->
                         fnlist p = [] /\ (List.length (itrafos p) <= 1)%nat).
  { intros p Ep. pose proof (plan_bound _ _ _ _ _ Ep) as [Hl Hb]. split.
    - destruct (fnlist p); [reflexivity|]. rewrite len_cons in Hl.
      pose proof (len_nonneg l). lia.
    - unfold build_plan in Ep. destruct loader as [|b rest].
      + simpl in Ep. injection Ep as <-. cbn. lia.
      + cbn [plan_loop] in Ep. apply bind_ok in Ep as ([st1 ids] & E1 & Ep).
        pose proof (plan_records_itrafos _ _ _ _ _ _ _ _ E1) as Hi1.
        cbn [nfiles] in Ep.
        destruct (Z.leb_spec (maxfiles args) (nfiles st1)) as [L|L].
        * injection Ep as <-. cbn [itrafos]. rewrite length_app, Hi1. cbn. lia.
        * assert (0 <= nfiles st1).
          { refine (plan_records_invariant args data _ (fun s => 0 <= nfiles s)
                      _ _ _ _ _ _ _ E1); [|cbn; lia].
            intros s0 [is0 it0] r s1 [is1 it1] Hs Er.
            apply plan_record_ok in Er
              as (f & s & t & _ & _ & _ & _ & _ & [[_ Hr]|[_ ->]]); [|exact Hs].
            destruct Hr as (k & g' & _ & ->). cbn. lia. }
          lia. }
  destruct (build_plan args data g loader) as [p|e] eqn:Ep.
  - destruct (Hp p eq_refl) as [Hf Hi].
    destruct (run_without_list args data g loader p Ep Hf) as [Hl Hw].
    split; [exact Hl|]. split; [exact Hw|].
    intros p' Ep'. injection Ep' as <-. auto.
  - unfold run. rewrite Ep. cbn. split; [reflexivity|]. split; [reflexivity|].
    intros p Hp'. discriminate.
Qed.

End EmptyRuns.

Lemma unforced_run_writes_nothing_witness :
  list_file (@run counter_source identity_model (demo_args None 5) demo_data_null 0
               demo_loader) = []
  /\ wav_files (@run counter_source identity_model (demo_args None 5) demo_data_null 0
                  demo_loader) = [].
Proof.
  apply (@unforced_run_writes_nothing counter_source identity_model (demo_args None 5)
           demo_data_null 0 demo_loader).
  reflexivity.
Defined.

Lemma no_files_allowed_witness :
  wav_files (@run counter_source identity_model (demo_args (Some "p2"%string) 0)
               demo_data 0 demo_loader) = []
  /\ raised (@run counter_source identity_model (demo_args (Some "p2"%string) 0)
               demo_data 0 demo_loader) = Some IndexError.
Proof.
  destruct (@no_files_allowed counter_source identity_model
              (demo_args (Some "p2"%string) 0) demo_data 0 demo_loader)
    as (_ & Hw & _).
  - cbn. lia.
  - split; [exact Hw | reflexivity].
Defined.

(** ** The files written *)

Section FilesWritten.

Context `{VCModel}.
Variable args : arguments.
Variable plan_files : list triple.
Variable plan_ids : list (list Z * list Z).

Lemma rate_flush st o st' :
  Forall (fun w => wav_rate w = 16000) (files st) ->
  flush args plan_files st = (o, st') ->
  Forall (fun w => wav_rate w = 16000) (files st').
Proof.
  intros Hr E. destruct o as [e|].
  - apply flush_err in E as [_ ->]. exact Hr.
  - apply flush_ok in E as (t & path & y & _ & _ & _ & ->). cbn [files].
    apply Forall_app. split; [exact Hr|]. now repeat constructor.
Qed.

Lemma rate_records x : forall n infos st o st',
  Forall (fun w => wav_rate w = 16000) (files st) ->
  synth_records args plan_files x n infos st = (o, st') ->
  Forall (fun w => wav_rate w = 16000) (files st').
Proof.
  induction x as [|f x IH]; intros n infos st o st' Hr E.
  - simpl in E. injection E as <- <-. exact Hr.
  - cbn [synth_records] in E.
    set (st1 := mkSynth (audio st ++ [f]) (nflushed st) (files st)) in *.
    destruct (py_index infos n) as [r|e]; [|injection E as <- <-; exact Hr].
    destruct (last r =? 1); [|eapply IH; [|exact E]; exact Hr].
    destruct (flush args plan_files st1) as [[e|] st2] eqn:Ef;
      pose proof (rate_flush st1 _ _ Hr Ef) as H2.
    + injection E as <- <-. exact H2.
    + destruct (maxfiles args <=? nflushed st2).
      * injection E as <- <-. exact H2.
      * eapply IH; eauto.
Qed.

Lemma rate_loop loader : forall k st o st',
  Forall (fun w => wav_rate w = 16000) (files st) ->
  synth_loop args plan_files plan_ids k loader st = (o, st') ->
  Forall (fun w => wav_rate w = 16000) (files st').
Proof.
  induction loader as [|b rest IH]; intros k st o st' Hr E.
  - simpl in E. injection E as <- <-. exact Hr.
  - cbn [synth_loop] in E.
    destruct (nth_error plan_ids k) as [[isource itarget]|];
      [|injection E as <- <-; exact Hr].
    destruct (mul_window (window args) _) as [x2|e];
      [|injection E as <- <-; exact Hr].
    destruct (synth_records args plan_files x2 0 (map snd b) st) as [[e|] st1] eqn:E1;
      pose proof (rate_records _ _ _ _ _ _ Hr E1) as H1.
    + injection E as <- <-. exact H1.
    + eapply IH; eauto.
Qed.

End FilesWritten.

Section FilesWrittenClaim.

Context `{RandomSource} `{VCModel}.

(** X17.  Every audio file of a run is written at 16000 Hz, directly in
    [path_out], under a name that ends in [.wav]. *)
Theorem written_files_shape :
  forall (args : arguments) (data : dataset) (g : rng) (loader : list batch) w,
    In w (wav_files (run args data g loader)) ->
    wav_rate w = 16000
    /\ exists name,
        wav_path w = path_join (path_out args) (append name ".wav").
Proof.
  intros args data g loader w Hw. unfold run in Hw.
  destruct (build_plan args data g loader) as [p|e]; [|contradiction].
  destruct (write_list (fnlist p)) as [[e|] ls]; [contradiction|].
  destruct (synth_loop args (fnlist p) (itrafos p) 0 loader synth_init)
    as [o st] eqn:Es. cbn [wav_files] in Hw. split.
  - apply rate_loop in Es; [|constructor].
    rewrite Forall_forall in Es. now apply Es.
  - apply named_by_plan_loop in Es.
    + destruct Es as [_ Hn]. apply In_nth_error in Hw as [n Hnw].
      destruct (Hn n w Hnw) as ([[fn src] tgt] & _ & Hp).
      unfold out_path in Hp. apply bind_ok in Hp as (fn2 & _ & Hp).
      injection Hp as Hp. exists fn2. now symmetry.
    + split; [reflexivity|]. intros [|k] w0 Hw0; discriminate.
Qed.

End FilesWrittenClaim.

Lemma written_files_shape_witness :
  exists w,
    nth_error (wav_files (@run counter_source identity_model
                            (demo_args (Some "p2"%string) 5) demo_data 0 demo_loader)) 1
    = Some w
    /\ wav_rate w = 16000.
Proof.
  eexists. split; [reflexivity|].
  apply (@written_files_shape counter_source identity_model
           (demo_args (Some "p2"%string) 5) demo_data 0 demo_loader).
  right. left. reflexivity.
Defined.

(** ** No conversion *)

Section NoConversion.

(** Without [--convert] the model is never called: the synthesis loop
    computes the same with any two models. *)
Lemma synth_loop_ignores_model (M1 M2 : VCModel) (args : arguments)
  (plan_files : list triple) (plan_ids : list (list Z * list Z)) loader :
  convert args = false ->
  forall k st,
    @synth_loop M1 args plan_files plan_ids k loader st
    = @synth_loop M2 args plan_files plan_ids k loader st.
Proof.
  intros Hc. induction loader as [|b rest IH]; intros k st; [reflexivity|].
  cbn [synth_loop]. rewrite Hc.
  destruct (nth_error plan_ids k) as [[isource itarget]|]; [|reflexivity].
  destruct (mul_window (window args) (map fst b)) as [x2|e]; [|reflexivity].
  destruct (synth_records args plan_files x2 0 (map snd b) st) as [[e|] st1];
    [reflexivity|]. apply IH.
Qed.

(** X18.  Without [--convert] the outputs of the script do not depend on the
    model. *)
Theorem no_conversion_ignores_model :
  forall (R : RandomSource) (M1 M2 : VCModel) (args : arguments) (data : dataset)
         (g : rng) (loader : list batch),
    convert args = false ->
    @run R M1 args data g loader = @run R M2 args data g loader.
Proof.
  intros R M1 M2 args data g loader Hc. unfold run.
  destruct (build_plan args data g loader) as [p|e]; [|reflexivity].
  destruct (write_list (fnlist p)) as [[e|] ls]; [reflexivity|].
  now rewrite (synth_loop_ignores_model M1 M2 args (fnlist p) (itrafos p) loader Hc).
Qed.

End NoConversion.

Lemma no_conversion_ignores_model_witness :
  @run counter_source identity_model (demo_args (Some "p2"%string) 5) demo_data 0
       demo_loader
  = @run counter_source silent_model (demo_args (Some "p2"%string) 5) demo_data 0
         demo_loader.
Proof.
  apply no_conversion_ignores_model. reflexivity.
Defined.

(** ** The list and the files of a run *)

Lemma write_list_complete (l : list triple) ls :
  write_list l = (None, ls) -> List.length ls = List.length l.
Proof.
  revert ls. induction l as [|t l IH]; intros ls E.
  - simpl in E. now injection E as <-.
  - cbn [write_list] in E. destruct (list_line t) as [s|e]; [|discriminate].
    destruct (write_list l) as [[e|] ls0]; [discriminate|].
    injection E as <-. cbn [List.length]. f_equal. now apply IH.
Qed.

Section SuccessfulRuns.

Context `{RandomSource} `{VCModel}.

(** A run that ends without an exception: its plan, its lines, and its
    files in the order of the stream. *)
Lemma successful_run_in_order (args : arguments) (data : dataset) (g : rng)
  (loader : list batch) :
  raised (run args data g loader) = None ->
  (convert args = true ->
   forall x isource itarget,
     List.length (reverse (forward x isource) itarget) = List.length x) ->
  exists p,
    build_plan args data g loader = Ok p
    /\ List.length (list_file (run args data g loader)) = List.length (fnlist p)
    /\ List.length (wav_files (run args data g loader)) = List.length (fnlist p)
    /\ flushed_in_order args data (fnlist p)
         (stream_rows args (itrafos p) 0 loader)
         (wav_files (run args data g loader)).
Proof.
  unfold run.
  destruct (build_plan args data g loader) as [p|e] eqn:Ep; [|discriminate].
  destruct (write_list (fnlist p)) as [[e|] ls] eqn:Ew; [discriminate|].
  destruct (synth_loop args (fnlist p) (itrafos p) 0 loader synth_init)
    as [o st] eqn:Es. cbn [raised wav_files list_file].
  intros -> Hmodel. exists p. split; [reflexivity|].
  split; [exact (write_list_complete _ _ Ew)|].
  destruct (Z.le_gt_cases (maxfiles args) 0) as [Hm|Hm].
  - pose proof (plan_bound _ _ _ _ _ Ep) as [Hl Hb].
    assert (Hn : named_by_plan args (fnlist p) st).
    { eapply named_by_plan_loop; [|exact Es].
      split; [reflexivity|]. intros [|k] w0 Hw0; discriminate. }
    apply named_by_plan_bound in Hn.
    pose proof (len_nonneg (fnlist p)) as L1. pose proof (len_nonneg (files st)) as L2.
    assert (Hs : files st = []).
    { destruct (files st); [reflexivity|]. rewrite len_cons in *.
      pose proof (len_nonneg f). lia. }
    rewrite Hs. split; [unfold len in *; cbn; lia|].
    intros [|k] w Hw; discriminate.
  - unfold build_plan in Ep.
    destruct (lockstep_loop args data (restart_target args data) p Hmodel loader
                (plan_init args g) synth_init st []) as [Hlen Ho].
    + exact Ep.
    + exact Es.
    + unfold in_lockstep. cbn. repeat split; try reflexivity; try lia.
      intros [|k] w Hw; discriminate.
    + split; [unfold len in Hlen; lia | exact Ho].
Qed.

(** X19.  In a run that ends without an exception, with a model that returns
    as many frames as it is given, the list has one line per audio file
    written. *)
Theorem one_line_per_file :
  forall (args : arguments) (data : dataset) (g : rng) (loader : list batch),
    raised (run args data g loader) = None ->
    (convert args = true ->
     forall x isource itarget,
       List.length (reverse (forward x isource) itarget) = List.length x) ->
    List.length (list_file (run args data g loader))
    = List.length (wav_files (run args data g loader)).
Proof.
  intros args data g loader Hr Hmodel.
  destruct (successful_run_in_order args data g loader Hr Hmodel)
    as (p & _ & Hl & Hw & _).
  congruence.
Qed.

(** X20.  In such a run the audio file of rank [n] has
    [(N - 1) * stride + L] samples, where [N] is the number of rows of
    the stream up to the boundary row of rank [n], since the previous
    one, and [L] the length of the first of their frames. *)
Theorem written_file_length :
  forall (args : arguments) (data : dataset) (g : rng) (loader : list batch),
    raised (run args data g loader) = None ->
    (convert args = true ->
     forall x isource itarget,
       List.length (reverse (forward x isource) itarget) = List.length x) ->
    exists p,
      build_plan args data g loader = Ok p
      /\ forall n w,
           nth_error (wav_files (run args data g loader)) n = Some w ->
           exists f0 rest,
             nth_error (groups (stream_rows args (itrafos p) 0 loader) []) n
             = Some (f0 :: rest)
             /\ len (wav_data w) = len rest * stride args + len f0.
Proof.
  intros args data g loader Hr Hmodel.
  destruct (successful_run_in_order args data g loader Hr Hmodel)
    as (p & Ep & _ & _ & Ho).
  exists p. split; [exact Ep|]. intros n w Hw.
  destruct (Ho n w Hw) as (G & r & t & f & path & y & HG & _ & _ & _ & _ & _ & Hs).
  apply synthesize_ok in Hs as (buf & Eb & Ef & Efs).
  apply prenorm_length in Eb as (f0 & rest & -> & Hb).
  apply finalize_length in Ef.
  exists f0, rest. split; [exact HG|].
  cbn [app] in Efs. injection Efs as ->. cbn [wav_data].
  unfold quantize. rewrite len_map. unfold len at 1. rewrite Ef. fold (len buf).
  rewrite Hb, len_cons. ring.
Qed.

End SuccessfulRuns.

Lemma one_line_per_file_witness :
  List.length (list_file (@run counter_source identity_model
                            (demo_args (Some "p2"%string) 5) demo_data 0 demo_loader))
  = 2%nat
  /\ List.length (wav_files (@run counter_source identity_model
                               (demo_args (Some "p2"%string) 5) demo_data 0
                               demo_loader))
     = 2%nat.
Proof.
  pose proof (@one_line_per_file counter_source identity_model
                (demo_args (Some "p2"%string) 5) demo_data 0 demo_loader eq_refl) as H.
  split; [reflexivity|]. rewrite <- H; [reflexivity|].
  intros Hc. discriminate Hc.
Defined.

Lemma written_file_length_witness :
  exists w,
    nth_error (wav_files (@run counter_source identity_model
                            (demo_args (Some "p2"%string) 5) demo_data 0 demo_loader)) 0
    = Some w
    /\ len (wav_data w) = 1 * 2 + 4.
Proof.
  destruct (@written_file_length counter_source identity_model
              (demo_args (Some "p2"%string) 5) demo_data 0 demo_loader eq_refl)
    as (p & Ep & Hn).
  - intros Hc. discriminate Hc.
  - eexists. split; [reflexivity|].
    destruct (Hn 0%nat _ eq_refl) as (f0 & rest & HG & Hl).
    assert (E : Ok p = @build_plan counter_source (demo_args (Some "p2"%string) 5)
                         demo_data 0 demo_loader) by (symmetry; exact Ep).
    vm_compute in E. injection E as ->.
    vm_compute in HG. injection HG as <- <-. exact Hl.
Defined.
